(** * Rolling-window analytics: [RealTimeAnalytics] and [process_stream]

    A shallow embedding of [Level-06/Level-6.py].  The accumulator keeps two
    bounded deques (recent prices, recent simple returns) and two running
    sums; three queries read the current window.

    Numbers.  The program computes on IEEE-754 binary64 values: Python
    [float] for the prices (the elements a pandas Series yields when
    iterated) and for the running sums, [numpy.float64] inside the numpy
    calls.  Python's [/] on floats raises ZeroDivisionError for a zero
    divisor; numpy's division does not raise.  The code below is written
    once, over an interface [PyFloat] of the operations the source uses,
    and instantiated twice:
    - [Exact.ereal]: real numbers with a not-a-number element, no rounding;
    - [Binary64]: the kernel's primitive binary64 floats, rounding included.

    Effects.  A method mutates [self] and may raise; a method body is a
    function from the object's state to a result that carries the state
    reached, also when an exception leaves the method half way. *)

From Stdlib Require Import String.
From Stdlib Require Import List Arith ZArith Bool Lia.
From Stdlib Require Import Reals Lra.
From Stdlib Require Import Floats.
Import ListNotations.

Set Implicit Arguments.

(** ** Numbers as the source uses them *)

Class PyFloat (F : Type) : Type := {
  fadd : F -> F -> F;          (* a + b *)
  fsub : F -> F -> F;          (* a - b *)
  fmul : F -> F -> F;          (* a * b *)
  fdiv : F -> F -> F;          (* IEEE a / b, as numpy.float64 divides *)
  fsqrt : F -> F;              (* np.sqrt *)
  of_int : nat -> F;           (* an int literal or a len() used as a float *)
  nan : F;                     (* np.nan *)
  feq : F -> F -> bool;        (* a == b *)
  risk_free_default : F        (* the literal 0.02 *)
}.

(** ** [collections.deque(maxlen=...)] *)

Section Deque.
Variable A : Type.

Record deque : Type := Deque { maxlen : nat; items : list A }.

Definition deque_new (n : nat) : deque := Deque n [].

Definition len (d : deque) : nat := length (items d).

(** [d.append(x)]: add on the right, then drop the leftmost element when
    the bound is exceeded. *)
Definition push (n : nat) (l : list A) (x : A) : list A :=
  let l' := l ++ [x] in if n <? length l' then tl l' else l'.

Definition append (d : deque) (x : A) : deque :=
  Deque (maxlen d) (push (maxlen d) (items d) x).

(** [d[i]]: a negative index counts from the right; [None] stands for
    IndexError. *)
Definition getitem (d : deque) (i : Z) : option A :=
  if (0 <=? i)%Z then nth_error (items d) (Z.to_nat i)
  else nth_error (rev (items d)) (Z.to_nat (- i) - 1).
End Deque.

Arguments Deque {A} _ _.
Arguments deque_new {A} _.

(** ** Exceptions and method results *)

Inductive exn : Type := IndexError | ZeroDivisionError.

Section Code.
Context {F : Type} {PF : PyFloat F}.

(** The attributes that [__init__] sets. *)
Record RealTimeAnalytics : Type := Self {
  window : nat;
  prices : deque F;
  returns : deque F;
  sum_prices : F;
  sum_returns : F
}.

(** What a call leaves behind: a value and the state, or an exception and
    the state at the point where it was raised. *)
Inductive result (A : Type) : Type :=
| Ok (a : A) (self : RealTimeAnalytics)
| Raise (e : exn) (self : RealTimeAnalytics).
Arguments Raise {A} _ _.

Definition M (A : Type) : Type := RealTimeAnalytics -> result A.

Definition ret {A} (a : A) : M A := fun self => Ok a self.
Definition bind {A B} (m : M A) (k : A -> M B) : M B :=
  fun self => match m self with
              | Ok a self' => k a self'
              | Raise e self' => Raise e self'
              end.
Definition get {A} (f : RealTimeAnalytics -> A) : M A :=
  fun self => Ok (f self) self.
Definition modify (f : RealTimeAnalytics -> RealTimeAnalytics) : M unit :=
  fun self => Ok tt (f self).
Definition raise {A} (e : exn) : M A := fun self => Raise e self.
Definition when (b : bool) (m : M unit) : M unit := if b then m else ret tt.

Notation "x <- m ;; k" := (bind m (fun x => k))
  (at level 61, m at next level, right associativity).
Notation "m ;; k" := (bind m (fun _ => k))
  (at level 61, right associativity).

(** [self.<dq>[i]] *)
Definition index (dq : RealTimeAnalytics -> deque F) (i : Z) : M F :=
  fun self => match getitem (dq self) i with
              | Some x => Ok x self
              | None => Raise IndexError self
              end.

(** [a / b] on Python floats: a zero divisor raises. *)
Definition truediv (a b : F) : M F :=
  if feq b (of_int 0) then raise ZeroDivisionError else ret (fdiv a b).

Definition set_prices (d : deque F) (self : RealTimeAnalytics) :=
  Self (window self) d (returns self) (sum_prices self) (sum_returns self).
Definition set_returns (d : deque F) (self : RealTimeAnalytics) :=
  Self (window self) (prices self) d (sum_prices self) (sum_returns self).
Definition set_sum_prices (x : F) (self : RealTimeAnalytics) :=
  Self (window self) (prices self) (returns self) x (sum_returns self).
Definition set_sum_returns (x : F) (self : RealTimeAnalytics) :=
  Self (window self) (prices self) (returns self) (sum_prices self) x.

(** [RealTimeAnalytics(window)] *)
Definition init (w : nat) : RealTimeAnalytics :=
  Self w (deque_new w) (deque_new w) (of_int 0) (of_int 0).

(** [update(self, price)] *)
Definition update (price : F) : M unit :=
  n <- get (fun self => len (prices self)) ;;
  w <- get window ;;
  when (n =? w) (
    p0 <- index prices 0 ;;
    modify (fun self => set_sum_prices (fsub (sum_prices self) p0) self)) ;;
  modify (fun self => set_prices (append (prices self) price) self) ;;
  modify (fun self => set_sum_prices (fadd (sum_prices self) price) self) ;;
  n <- get (fun self => len (prices self)) ;;
  when (1 <? n) (
    a <- index prices (-1) ;;
    b <- index prices (-2) ;;
    q <- truediv a b ;;
    let r := fsub q (of_int 1) in
    n <- get (fun self => len (returns self)) ;;
    w <- get window ;;
    when (n =? w) (
      r0 <- index returns 0 ;;
      modify (fun self => set_sum_returns (fsub (sum_returns self) r0) self)) ;;
    modify (fun self => set_returns (append (returns self) r) self) ;;
    modify (fun self => set_sum_returns (fadd (sum_returns self) r) self)).

(** numpy's sum of a float64 array ([np.add.reduce]): the result starts at
    zero and takes the array's pairwise sum.  Fewer than eight elements are
    added in order from zero.  Up to 128 elements are added in blocks: eight
    accumulators take the first eight elements, every further full block of
    eight is added to them position by position, the accumulators are added
    as ((r0+r1)+(r2+r3))+((r4+r5)+(r6+r7)), and the elements after the last
    full block are added to that in order.  A longer array is cut at half
    its length rounded down to a multiple of eight, and the sums of the two
    parts are added.  (A numpy that starts from -0.0 differs in the sign of
    a zero total of negative zeros only.) *)
Fixpoint zip_add (r b : list F) : list F :=
  match r, b with
  | x :: r', y :: b' => fadd x y :: zip_add r' b'
  | _, _ => []
  end.

(** [for (i = 8; i < n - (n % 8); i += 8) r[j] += a[i + j]], for [k] blocks;
    returns the accumulators and the elements not yet read. *)
Fixpoint add_blocks (k : nat) (r a : list F) : list F * list F :=
  match k with
  | 0 => (r, a)
  | S k' => add_blocks k' (zip_add r (firstn 8 a)) (skipn 8 a)
  end.

Definition add_accumulators (r : list F) : F :=
  match r with
  | [r0; r1; r2; r3; r4; r5; r6; r7] =>
      fadd (fadd (fadd r0 r1) (fadd r2 r3)) (fadd (fadd r4 r5) (fadd r6 r7))
  | _ => of_int 0
  end.

Definition block_sum (a : list F) : F :=
  let (r, rest) := add_blocks (length a / 8 - 1) (firstn 8 a) (skipn 8 a) in
  fold_left fadd rest (add_accumulators r).

(** The recursion halves the array; [depth] bounds its depth. *)
Fixpoint pairwise_sum_rec (depth : nat) (a : list F) : F :=
  let n := length a in
  if n <? 8 then fold_left fadd a (of_int 0)
  else if n <=? 128 then block_sum a
  else match depth with
       | 0 => block_sum a
       | S d =>
           let n2 := n / 2 - (n / 2) mod 8 in
           fadd (pairwise_sum_rec d (firstn n2 a))
                (pairwise_sum_rec d (skipn n2 a))
       end.

Definition pairwise_sum (a : list F) : F := pairwise_sum_rec (length a) a.

Definition np_sum (a : list F) : F := fadd (of_int 0) (pairwise_sum a).

(** [np.mean] divides the sum by the element count; [np.std] with [ddof]
    subtracts the mean, squares, sums, divides by [max (n - ddof) 0] and
    takes the square root. *)
Definition np_mean (a : list F) : F := fdiv (np_sum a) (of_int (length a)).
Definition np_std (a : list F) (ddof : nat) : F :=
  let m := np_mean a in
  let x := map (fun v => fsub v m) a in
  fsqrt (fdiv (np_sum (map (fun v => fmul v v) x))
              (of_int (length a - ddof))).

(** [mean_price(self)]; the divisor is the length of a non-empty deque. *)
Definition mean_price : M F :=
  nonempty <- get (fun self => negb (len (prices self) =? 0)) ;;
  if nonempty : bool then
    s <- get sum_prices ;;
    n <- get (fun self => len (prices self)) ;;
    ret (fdiv s (of_int n))
  else ret nan.

(** [volatility(self)] *)
Definition volatility : M F :=
  n <- get (fun self => len (returns self)) ;;
  if n <? 2 then ret nan
  else
    rs <- get (fun self => items (returns self)) ;;
    ret (fmul (np_std rs 1) (fsqrt (of_int 252))).

(** [sharpe(self, risk_free)]; [risk_free / 252] has a non-zero divisor and
    the last quotient is numpy's. *)
Definition sharpe (risk_free : F) : M F :=
  n <- get (fun self => len (returns self)) ;;
  if n <? 2 then ret nan
  else
    rs <- get (fun self => items (returns self)) ;;
    let excess := map (fun r => fsub r (fdiv risk_free (of_int 252))) rs in
    let mean_ret := np_mean excess in
    let vol := np_std excess 1 in
    if negb (feq vol (of_int 0))
    then ret (fdiv (fmul (fsqrt (of_int 252)) mean_ret) vol)
    else ret nan.

(** The state a call leaves, whether it returned or raised. *)
Definition state_of {A} (r : result A) : RealTimeAnalytics :=
  match r with Ok _ self => self | Raise _ self => self end.

Definition value_of {A} (r : result A) : option A :=
  match r with Ok a _ => Some a | Raise _ _ => None end.

(** The state after issuing [update] for each price in turn. *)
Definition updates (self : RealTimeAnalytics) (ps : list F)
  : RealTimeAnalytics :=
  fold_left (fun s p => state_of (update p s)) ps self.

(** *** [process_stream]

    [yf.download] and the plotting calls are outside the program; the
    embedding takes the downloaded frame as its [Close] column, one price
    per row, and stops at the returned table.  Beside the outcome it
    reports the accumulator the run built, [None] when it built none. *)
Record row : Type := Row { Price : F; MA : F; Volatility : F; Sharpe : F }.

Inductive run : Type :=
| SystemExit (msg : string)
| Uncaught (e : exn)
| Returned (df : list row).

(** The body of [for p in prices], and the loop. *)
Definition tick (p : F) : M row :=
  update p ;;
  ma <- mean_price ;;
  vol <- volatility ;;
  sh <- sharpe risk_free_default ;;
  ret (Row p ma vol sh).

Fixpoint ticks (ps : list F) : M (list row) :=
  match ps with
  | [] => ret []
  | p :: ps' => r <- tick p ;; rs <- ticks ps' ;; ret (r :: rs)
  end.

Definition process_stream (data : list F) (w : nat)
  : option RealTimeAnalytics * run :=
  match data with
  | [] => (None, SystemExit "No data returned."%string)
  | _ :: _ =>
      match ticks data (init w) with
      | Ok df stream => (Some stream, Returned df)
      | Raise e stream => (Some stream, Uncaught e)
      end
  end.

End Code.

Arguments Raise {F A} _ _.
Arguments RealTimeAnalytics F : clear implicits.
Arguments result F A : clear implicits.
Arguments M F A : clear implicits.
Arguments row F : clear implicits.
Arguments run F : clear implicits.

(** ** Words for what the code does and what the spec says *)

Section LastN.
Variable A : Type.
Implicit Types (l : list A).

(** [l[-k:]] for [k >= 1]; the empty list for [k = 0]. *)
Definition lastn (k : nat) l : list A := skipn (length l - k) l.
End LastN.

Section Described.
Context {F : Type} {PF : PyFloat F}.
Implicit Types (p sp sr : F) (ps rs : list F).

(** A running sum after the eviction that precedes an append. *)
Definition evicted (w : nat) (l : list F) (s : F) : F :=
  if length l =? w
  then match l with x :: _ => fsub s x | [] => s end
  else s.

(** [price / previous - 1] *)
Definition simple_return (prev p : F) : F := fsub (fdiv p prev) (of_int 1).

Definition nonzero p : Prop := feq p (of_int 0) = false.

(** The simple returns of consecutive pairs, in arrival order. *)
Fixpoint returns_from (prev : F) (ps : list F) : list F :=
  match ps with
  | [] => []
  | p :: ps' => simple_return prev p :: returns_from p ps'
  end.

Definition simple_returns (ps : list F) : list F :=
  match ps with
  | [] => []
  | p :: ps' => returns_from p ps'
  end.

(** The sum of a series, added in order from zero. *)
Definition series_sum (xs : list F) : F := fold_left fadd xs (of_int 0).

(** The arithmetic mean of a series added in order. *)
Definition series_mean (xs : list F) : F :=
  fdiv (series_sum xs) (of_int (length xs)).

(** The arithmetic mean of a sample, its total added the way numpy adds. *)
Definition sample_mean (xs : list F) : F :=
  fdiv (np_sum xs) (of_int (length xs)).

(** The sample standard deviation with Bessel's correction: the sum of
    squared deviations from the mean, divided by [n - 1], square-rooted;
    both totals added the way numpy adds. *)
Definition sample_stdev (xs : list F) : F :=
  let m := sample_mean xs in
  let squared_deviation x := fmul (fsub x m) (fsub x m) in
  fsqrt (fdiv (np_sum (map squared_deviation xs))
              (of_int (length xs - 1))).

(** The per-period excess returns over an annual rate. *)
Definition excess_returns (risk_free : F) (rs : list F) : list F :=
  map (fun r => fsub r (fdiv risk_free (of_int 252))) rs.

(** The three queries. *)
Inductive query : Type := QMean | QVolatility | QSharpe (risk_free : F).

Definition ask (q : query) : M F F :=
  match q with
  | QMean => mean_price
  | QVolatility => volatility
  | QSharpe rf => sharpe rf
  end.

(** Calls of the queries one after the other, results in call order. *)
Fixpoint ask_all (qs : list query) : M F (list F) :=
  match qs with
  | [] => ret []
  | q :: qs' => bind (ask q) (fun v => bind (ask_all qs') (fun vs => ret (v :: vs)))
  end.

(** What each query returns, read off the state. *)
Definition answer (self : RealTimeAnalytics F) (q : query) : F :=
  match q with
  | QMean =>
      if len (prices self) =? 0 then nan
      else fdiv (sum_prices self) (of_int (len (prices self)))
  | QVolatility =>
      let rs := items (returns self) in
      if length rs <? 2 then nan
      else fmul (sample_stdev rs) (fsqrt (of_int 252))
  | QSharpe rf =>
      let rs := items (returns self) in
      if length rs <? 2 then nan
      else
        let excess := excess_returns rf rs in
        if feq (sample_stdev excess) (of_int 0) then nan
        else fdiv (fmul (fsqrt (of_int 252)) (sample_mean excess))
                  (sample_stdev excess)
  end.
End Described.

(** ** Exact arithmetic: the reals and one not-a-number *)

Module Exact.

Inductive ereal : Type := NaN | Real (r : R).

Definition lift2 (f : R -> R -> R) (a b : ereal) : ereal :=
  match a, b with
  | Real x, Real y => Real (f x y)
  | _, _ => NaN
  end.

(** A quotient by zero is no real number. *)
Definition ediv (a b : ereal) : ereal :=
  match a, b with
  | Real x, Real y => if Req_dec_T y 0 then NaN else Real (x / y)%R
  | _, _ => NaN
  end.

Definition esqrt (a : ereal) : ereal :=
  match a with
  | Real x => if Rlt_dec x 0 then NaN else Real (R_sqrt.sqrt x)
  | NaN => NaN
  end.

Definition eeq (a b : ereal) : bool :=
  match a, b with
  | Real x, Real y => if Req_dec_T x y then true else false
  | _, _ => false
  end.

#[export] Instance ereal_float : PyFloat ereal := {|
  fadd := lift2 Rplus;
  fsub := lift2 Rminus;
  fmul := lift2 Rmult;
  fdiv := ediv;
  fsqrt := esqrt;
  of_int := fun n => Real (INR n);
  nan := NaN;
  feq := eeq;
  risk_free_default := Real (2 / 100)%R
|}.

(** Sums, means and Bessel-corrected variances of real series. *)
Definition Rsum (l : list R) : R := fold_right Rplus 0%R l.
Definition Rmean (l : list R) : R := (Rsum l / INR (length l))%R.
(** The sample variance with Bessel's correction. *)
Definition Rvar (l : list R) : R :=
  (Rsum (map (fun v => (v - Rmean l) * (v - Rmean l)) l)
   / INR (length l - 1))%R.

(** A state whose buffers hold reals and whose sums are the buffers' sums. *)
Definition real_state (w : nat) (lp lr : list R) : RealTimeAnalytics ereal :=
  Self w (Deque w (map Real lp)) (Deque w (map Real lr))
       (Real (Rsum lp)) (Real (Rsum lr)).

End Exact.

(** ** IEEE-754 binary64 *)

Module Binary64.

#[export] Instance binary64 : PyFloat float := {|
  fadd := PrimFloat.add;
  fsub := PrimFloat.sub;
  fmul := PrimFloat.mul;
  fdiv := PrimFloat.div;
  fsqrt := PrimFloat.sqrt;
  of_int := fun n => PrimFloat.of_uint63 (Uint63.of_nat n);
  nan := PrimFloat.nan;
  feq := PrimFloat.eqb;
  risk_free_default := 0x1.47ae147ae147bp-6%float
|}.

End Binary64.

(** ** Lists: the last [k] elements, and deque indexing *)

Section Lists.
Variable A : Type.
Implicit Types (l h : list A) (x d : A).

Lemma length_lastn k l : length (lastn k l) = Nat.min (length l) k.
Proof. unfold lastn. rewrite length_skipn. lia. Qed.

Lemma lastn_all k l : length l <= k -> lastn k l = l.
Proof.
  intros Hk. unfold lastn.
  replace (length l - k) with 0 by lia. reflexivity.
Qed.

Lemma tl_skipn n l : tl (skipn n l) = skipn (S n) l.
Proof.
  revert l. induction n as [|n IH]; intros [|a l]; simpl; auto.
Qed.

Lemma tl_app_nonempty l x : l <> [] -> tl (l ++ [x]) = tl l ++ [x].
Proof. destruct l; [congruence | reflexivity]. Qed.

Lemma push_lastn k h x : push k (lastn k h) x = lastn k (h ++ [x]).
Proof.
  unfold push, lastn. rewrite !length_app, length_skipn. simpl.
  destruct (Nat.ltb_spec k (length h - (length h - k) + 1)) as [Hlt|Hge].
  - destruct (Nat.eq_dec k 0) as [->|Hk].
    + rewrite Nat.sub_0_r, skipn_all. simpl.
      replace (length h + 1 - 0) with (length (h ++ [x])).
      * now rewrite skipn_all.
      * rewrite length_app. simpl. lia.
    + assert (Hh : k <= length h) by lia.
      rewrite tl_app_nonempty.
      * rewrite tl_skipn.
        replace (length h + 1 - k) with (S (length h - k)) by lia.
        rewrite skipn_app.
        replace (S (length h - k) - length h) with 0 by lia.
        reflexivity.
      * intros E. apply (f_equal (@length A)) in E.
        rewrite length_skipn in E. simpl in E. lia.
  - assert (Hh : length h < k) by lia.
    replace (length h - k) with 0 by lia.
    replace (length h + 1 - k) with 0 by lia.
    reflexivity.
Qed.

Lemma last_skipn n l d : n < length l -> last (skipn n l) d = last l d.
Proof.
  revert l. induction n as [|n IH]; intros [|a l] Hn; simpl in *; try lia; auto.
  rewrite IH by lia. destruct l; [simpl in Hn; lia | reflexivity].
Qed.

Lemma last_lastn k h d : 1 <= k -> h <> [] -> last (lastn k h) d = last h d.
Proof.
  intros Hk Hh. unfold lastn. apply last_skipn.
  destruct h; [congruence | cbn [length]; lia].
Qed.

Lemma getitem_0 n l : getitem (Deque n l) 0 = hd_error l.
Proof. destruct l; reflexivity. Qed.

Lemma rev_push_0 n l x :
  nth_error (rev (push n l x)) 0 =
  if (n =? 0) && (length l =? 0) then None else Some x.
Proof.
  unfold push. rewrite length_app. simpl.
  destruct (Nat.ltb_spec n (length l + 1)).
  - destruct l as [|a l]; simpl.
    + destruct n; [reflexivity | simpl in *; lia].
    + rewrite rev_app_distr. simpl. now rewrite andb_false_r.
  - rewrite rev_app_distr. simpl.
    destruct n; [lia | reflexivity].
Qed.

Lemma rev_push_1 n l x d :
  1 < length (push n l x) ->
  nth_error (rev (push n l x)) 1 = Some (last l d).
Proof.
  intros Hl.
  assert (Hne : l <> []).
  { intros ->. unfold push in Hl. cbn in Hl.
    destruct (n <=? 0); cbn in Hl; lia. }
  destruct (exists_last Hne) as (l0 & b & ->).
  rewrite last_last. unfold push in *.
  destruct (n <? length ((l0 ++ [b]) ++ [x])).
  - destruct l0 as [|c l1]; [cbn in Hl; lia|].
    cbn [app tl]. now rewrite !rev_app_distr.
  - now rewrite !rev_app_distr.
Qed.
End Lists.

(** ** One call of [update], in closed form *)

Section Step.
Context {F : Type} {PF : PyFloat F}.
Implicit Types (p sp sr : F) (ps rs : list F).

Lemma bind_get A B (f : RealTimeAnalytics F -> A) (k : A -> M F B) self :
  bind (get f) k self = k (f self) self.
Proof. reflexivity. Qed.

Lemma bind_modify B (f : RealTimeAnalytics F -> RealTimeAnalytics F)
      (k : unit -> M F B) self :
  bind (modify f) k self = k tt (f self).
Proof. reflexivity. Qed.

Lemma bind_ok A B (m : M F A) (k : A -> M F B) self a self' :
  m self = Ok a self' -> bind m k self = k a self'.
Proof. unfold bind. now intros ->. Qed.

(** The guarded eviction in front of each append. *)
Lemma evict_prices w mp mr ps rs sp sr :
  1 <= w ->
  when (length ps =? w)
    (bind (index prices 0)
       (fun p0 => modify (fun self =>
          set_sum_prices (fsub (sum_prices self) p0) self)))
    (Self w (Deque mp ps) (Deque mr rs) sp sr)
  = Ok tt (Self w (Deque mp ps) (Deque mr rs) (evicted w ps sp) sr).
Proof.
  intros Hw. unfold when, evicted.
  destruct (Nat.eqb_spec (length ps) w) as [E|E]; [|reflexivity].
  destruct ps as [|x ps]; [cbn in E; lia|]. reflexivity.
Qed.

Lemma evict_returns w mp mr ps rs sp sr :
  1 <= w ->
  when (length rs =? w)
    (bind (index returns 0)
       (fun r0 => modify (fun self =>
          set_sum_returns (fsub (sum_returns self) r0) self)))
    (Self w (Deque mp ps) (Deque mr rs) sp sr)
  = Ok tt (Self w (Deque mp ps) (Deque mr rs) sp (evicted w rs sr)).
Proof.
  intros Hw. unfold when, evicted.
  destruct (Nat.eqb_spec (length rs) w) as [E|E]; [|reflexivity].
  destruct rs as [|x rs]; [cbn in E; lia|]. reflexivity.
Qed.

Lemma index_last mp mr w ps rs sp sr p :
  1 < length (push mp ps p) ->
  index prices (-1) (Self w (Deque mp (push mp ps p)) (Deque mr rs) sp sr)
  = Ok p (Self w (Deque mp (push mp ps p)) (Deque mr rs) sp sr).
Proof.
  intros Hlen. unfold index, getitem. cbn [prices items].
  change (0 <=? -1)%Z with false. cbv iota.
  change (Z.to_nat (- -1) - 1) with 0.
  rewrite rev_push_0.
  replace ((mp =? 0) && (length ps =? 0)) with false; [reflexivity|].
  destruct mp, ps; try reflexivity.
  unfold push in Hlen. cbn in Hlen. lia.
Qed.

Lemma index_previous mp mr w ps rs sp sr p :
  1 < length (push mp ps p) ->
  index prices (-2) (Self w (Deque mp (push mp ps p)) (Deque mr rs) sp sr)
  = Ok (last ps p) (Self w (Deque mp (push mp ps p)) (Deque mr rs) sp sr).
Proof.
  intros Hlen. unfold index, getitem. cbn [prices items].
  change (0 <=? -2)%Z with false. cbv iota.
  change (Z.to_nat (- -2) - 1) with 1.
  now rewrite (rev_push_1 _ _ _ p Hlen).
Qed.

Lemma update_closed w mp mr ps rs sp sr p :
  1 <= w ->
  update p (Self w (Deque mp ps) (Deque mr rs) sp sr) =
  let ps' := push mp ps p in
  let sp' := fadd (evicted w ps sp) p in
  if 1 <? length ps' then
    if feq (last ps p) (of_int 0)
    then Raise ZeroDivisionError (Self w (Deque mp ps') (Deque mr rs) sp' sr)
    else
      let r := simple_return (last ps p) p in
      Ok tt (Self w (Deque mp ps') (Deque mr (push mr rs r)) sp'
                  (fadd (evicted w rs sr) r))
  else Ok tt (Self w (Deque mp ps') (Deque mr rs) sp' sr).
Proof.
  intros Hw. unfold update.
  rewrite bind_get, bind_get. cbn [window prices len items].
  rewrite (@bind_ok _ _ _ _ _ _ _ (@evict_prices w mp mr ps rs sp sr Hw)).
  rewrite bind_modify, bind_modify, bind_get.
  unfold set_prices, set_sum_prices, append, len.
  cbn [prices returns window sum_prices sum_returns maxlen items].
  cbv zeta.
  destruct (1 <? length (push mp ps p)) eqn:Hlen; [|reflexivity].
  apply Nat.ltb_lt in Hlen. unfold when at 1.
  rewrite (@bind_ok _ _ _ _ _ _ _ (@index_last mp mr w ps rs _ sr p Hlen)).
  rewrite (@bind_ok _ _ _ _ _ _ _ (@index_previous mp mr w ps rs _ sr p Hlen)).
  unfold truediv, simple_return.
  destruct (feq (last ps p) (of_int 0)); [reflexivity|].
  unfold ret at 1. unfold bind at 1.
  rewrite bind_get, bind_get. cbn [window returns len items].
  rewrite (@bind_ok _ _ _ _ _ _ _ (@evict_returns w mp mr (push mp ps p) rs _ sr Hw)).
  reflexivity.
Qed.
End Step.

(** ** The state after a sequence of calls, in any arithmetic *)

Section History.
Context {F : Type} {PF : PyFloat F}.
Implicit Types (p : F) (h : list F).

Lemma returns_from_snoc prev h p :
  returns_from prev (h ++ [p]) =
  returns_from prev h ++ [simple_return (last (prev :: h) p) p].
Proof.
  revert prev. induction h as [|a h IH]; intros prev; [reflexivity|].
  cbn [app returns_from]. rewrite IH. reflexivity.
Qed.

Lemma simple_returns_snoc h p :
  h <> [] ->
  simple_returns (h ++ [p]) = simple_returns h ++ [simple_return (last h p) p].
Proof.
  destruct h as [|a h]; [congruence|]. intros _.
  cbn [app simple_returns]. apply returns_from_snoc.
Qed.

Lemma length_returns_from prev h : length (returns_from prev h) = length h.
Proof.
  revert prev. induction h as [|a h IH]; intros prev; cbn; auto.
Qed.

Lemma length_simple_returns h : length (simple_returns h) = length h - 1.
Proof.
  destruct h as [|a h]; [reflexivity|].
  cbn [simple_returns length]. rewrite length_returns_from. lia.
Qed.

Lemma updates_snoc (st : RealTimeAnalytics F) h p :
  updates st (h ++ [p]) = state_of (update p (updates st h)).
Proof. unfold updates. now rewrite fold_left_app. Qed.

(** The window size and both bounds never change, and the price buffer
    holds the last [w] prices, whatever the calls did. *)
Lemma updates_prices w h :
  1 <= w ->
  let st := updates (init w) h in
  window st = w /\ maxlen (prices st) = w /\ maxlen (returns st) = w /\
  items (prices st) = lastn w h.
Proof.
  intros Hw. induction h as [|p h IH] using rev_ind.
  - cbn. repeat split; reflexivity.
  - cbv zeta in *. rewrite updates_snoc.
    destruct (updates (init w) h) as [w0 [mp ps] [mr rs] sp sr].
    cbn [window prices returns maxlen items] in IH.
    destruct IH as (-> & -> & -> & ->).
    rewrite update_closed by exact Hw. cbv zeta.
    rewrite push_lastn.
    destruct (1 <? _); [destruct (feq _ _)|];
      cbn; repeat split; reflexivity.
Qed.

(** A call on a state with one stored price at least, under a window of
    two or more, reaches the division. *)
Lemma second_price_seen w h p :
  2 <= w -> h <> [] -> (1 <? length (push w (lastn w h) p)) = true.
Proof.
  intros Hw Hh. rewrite push_lastn, length_lastn, length_app.
  apply Nat.ltb_lt. destruct h; [congruence|]. cbn [length]. lia.
Qed.

Lemma updates_returns w h :
  2 <= w -> Forall nonzero (removelast h) ->
  items (returns (updates (init w) h)) = lastn w (simple_returns h).
Proof.
  intros Hw. induction h as [|p h IH] using rev_ind; intros Hnz.
  - reflexivity.
  - rewrite removelast_last in Hnz. rewrite updates_snoc.
    assert (Hnz' : Forall nonzero (removelast h)).
    { destruct h as [|a h] using rev_ind; [constructor|].
      rewrite removelast_last. apply Forall_app in Hnz. tauto. }
    specialize (IH Hnz').
    pose proof (@updates_prices w h ltac:(lia)) as Hp. cbv zeta in Hp.
    destruct (updates (init w) h) as [w0 [mp ps] [mr rs] sp sr].
    cbn [window prices returns maxlen items] in IH, Hp.
    destruct Hp as (-> & -> & -> & ->). subst rs.
    rewrite update_closed by lia. cbv zeta.
    destruct h as [|a h0].
    + cbn. destruct w as [|[|w]]; try lia. reflexivity.
    + set (h := a :: h0) in *.
      assert (Hh : h <> []) by (subst h; congruence).
      rewrite second_price_seen by assumption.
      rewrite last_lastn by (assumption || lia).
      assert (Hl : nonzero (last h p)).
      { rewrite Forall_forall in Hnz. apply Hnz.
        destruct (exists_last Hh) as (l0 & b & E). rewrite E.
        rewrite last_last. apply in_or_app. right. now left. }
      unfold nonzero in Hl. rewrite Hl.
      cbn [state_of returns items].
      rewrite push_lastn. now rewrite simple_returns_snoc.
Qed.

Local Unset Implicit Arguments.

(** One call after a history of calls, from [update_closed] and the shape
    of the reached state. *)
Lemma update_after_history (w : nat) (h : list F) (p : F) :
  1 <= w ->
  let st := updates (init w) h in
  let mid := Self w (Deque w (lastn w (h ++ [p]))) (returns st)
                  (fadd (evicted w (items (prices st)) (sum_prices st)) p)
                  (sum_returns st) in
  update p st =
  if (2 <=? w) && negb (length h =? 0) then
    if feq (last h p) (of_int 0) then Raise ZeroDivisionError mid
    else
      let r := simple_return (last h p) p in
      Ok tt (Self w (Deque w (lastn w (h ++ [p])))
                  (Deque w (push w (items (returns st)) r))
                  (sum_prices mid)
                  (fadd (evicted w (items (returns st)) (sum_returns st)) r))
  else Ok tt mid.
Proof.
  intros Hw. cbv zeta.
  pose proof (updates_prices h Hw) as Hs. cbv zeta in Hs.
  destruct (updates (init w) h) as [w0 [mp ps] [mr rs] sp sr].
  cbn [window prices returns maxlen items sum_prices sum_returns] in *.
  destruct Hs as (-> & -> & -> & ->).
  rewrite update_closed by exact Hw. cbv zeta.
  rewrite push_lastn, length_lastn, length_app. cbn [length].
  destruct h as [|a h0].
  - cbn [length Nat.eqb negb]. rewrite andb_false_r.
    replace (1 <? Nat.min (0 + 1) w) with false
      by (symmetry; apply Nat.ltb_ge; lia).
    reflexivity.
  - set (h := a :: h0) in *.
    assert (Hh : h <> []) by (subst h; congruence).
    replace (length h =? 0) with false by (subst h; reflexivity).
    cbn [negb]. rewrite andb_true_r.
    destruct (Nat.leb_spec 2 w) as [H2|H2].
    + replace (1 <? Nat.min (length h + 1) w) with true
        by (symmetry; apply Nat.ltb_lt; subst h; cbn [length]; lia).
      rewrite last_lastn by (assumption || lia). reflexivity.
    + replace (1 <? Nat.min (length h + 1) w) with false
        by (symmetry; apply Nat.ltb_ge; lia).
      reflexivity.
Qed.

Lemma Forall_removelast (P : F -> Prop) (l : list F) :
  Forall P l -> Forall P (removelast l).
Proof.
  intros H. destruct l as [|a l] using rev_ind; [constructor|].
  rewrite removelast_last. apply Forall_app in H. tauto.
Qed.
(** While nothing has been evicted the running price sum is the sum of
    all prices, added in arrival order; this needs no law of arithmetic. *)
Lemma sum_prices_before_eviction (w : nat) (h : list F) :
  1 <= w -> length h <= w ->
  sum_prices (updates (init w) h) = series_sum h.
Proof.
  intros Hw. induction h as [|p h IH] using rev_ind; intros Hl.
  - reflexivity.
  - rewrite length_app in Hl. cbn [length] in Hl.
    rewrite updates_snoc.
    pose proof (@update_after_history w h p Hw) as Hu. cbv zeta in Hu.
    pose proof (@updates_prices w h Hw) as Hs. cbv zeta in Hs.
    destruct Hs as (_ & _ & _ & Hi).
    assert (Hev : evicted w (items (prices (updates (init w) h)))
                    (sum_prices (updates (init w) h)) = series_sum h).
    { unfold evicted. rewrite Hi, length_lastn.
      replace (Nat.min (length h) w =? w) with false
        by (symmetry; apply Nat.eqb_neq; lia).
      apply IH. lia. }
    rewrite Hev in Hu. rewrite Hu.
    assert (Hs : series_sum (h ++ [p]) = fadd (series_sum h) p).
    { unfold series_sum. now rewrite fold_left_app. }
    rewrite Hs.
    destruct ((2 <=? w) && negb (length h =? 0));
      [destruct (feq (last h p) (of_int 0))|]; reflexivity.
Qed.
End History.

(** ** numpy's summation: its recursion, and a series of zeros *)

Section Summation.
Context {F : Type} {PF : PyFloat F}.
Implicit Types (a r b : list F).

Lemma pairwise_sum_rec_eq d a :
  pairwise_sum_rec d a =
  if length a <? 8 then fold_left fadd a (of_int 0)
  else if length a <=? 128 then block_sum a
  else match d with
       | 0 => block_sum a
       | S d' =>
           fadd (pairwise_sum_rec d'
                   (firstn (length a / 2 - (length a / 2) mod 8) a))
                (pairwise_sum_rec d'
                   (skipn (length a / 2 - (length a / 2) mod 8) a))
       end.
Proof. destruct d; reflexivity. Qed.

Lemma half_block_bounds n :
  128 < n -> 1 <= n / 2 - (n / 2) mod 8 /\ n / 2 - (n / 2) mod 8 < n.
Proof.
  intros Hn.
  pose proof (Nat.div_mod_eq n 2) as H2.
  pose proof (Nat.mod_upper_bound n 2) as H2'.
  pose proof (Nat.mod_upper_bound (n / 2) 8) as H8.
  lia.
Qed.

(** The depth bound plays no part once it is at least the length. *)
Lemma pairwise_sum_rec_depth d1 d2 a :
  length a <= d1 -> length a <= d2 ->
  pairwise_sum_rec d1 a = pairwise_sum_rec d2 a.
Proof.
  revert d2 a. induction d1 as [|d1 IH]; intros d2 a H1 H2.
  - destruct a; [|cbn in H1; lia]. now rewrite !pairwise_sum_rec_eq.
  - rewrite (pairwise_sum_rec_eq (S d1)), (pairwise_sum_rec_eq d2).
    destruct (length a <? 8); [reflexivity|].
    destruct (length a <=? 128) eqn:E; [reflexivity|].
    apply Nat.leb_gt in E.
    destruct (half_block_bounds E) as [Hlo Hhi].
    destruct d2 as [|d2]; [lia|].
    f_equal; apply IH; rewrite ?length_firstn, ?length_skipn; lia.
Qed.

Lemma pairwise_sum_small a :
  length a < 8 -> pairwise_sum a = fold_left fadd a (of_int 0).
Proof.
  intros H. unfold pairwise_sum. rewrite pairwise_sum_rec_eq.
  apply Nat.ltb_lt in H. now rewrite H.
Qed.

Lemma pairwise_sum_blocks a :
  8 <= length a <= 128 -> pairwise_sum a = block_sum a.
Proof.
  intros [H8 H128]. unfold pairwise_sum. rewrite pairwise_sum_rec_eq.
  apply Nat.ltb_ge in H8. apply Nat.leb_le in H128. now rewrite H8, H128.
Qed.

(** A long array's sum is the sum of the sums of its two parts. *)
Lemma pairwise_sum_halves a :
  128 < length a ->
  pairwise_sum a =
  fadd (pairwise_sum (firstn (length a / 2 - (length a / 2) mod 8) a))
       (pairwise_sum (skipn (length a / 2 - (length a / 2) mod 8) a)).
Proof.
  intros H. destruct (half_block_bounds H) as [Hlo Hhi].
  unfold pairwise_sum at 1. rewrite pairwise_sum_rec_eq.
  assert (E8 : (length a <? 8) = false) by (apply Nat.ltb_ge; lia).
  assert (E128 : (length a <=? 128) = false) by (apply Nat.leb_gt; lia).
  rewrite E8, E128.
  destruct (length a) as [|n] eqn:En; [lia|]. rewrite <- En in *.
  unfold pairwise_sum.
  f_equal; apply pairwise_sum_rec_depth;
    rewrite ?length_firstn, ?length_skipn; lia.
Qed.

(** A series of zeros adds up to zero, in an arithmetic where 0 + 0 = 0. *)
Definition zeros a : Prop := Forall (fun x => x = of_int 0) a.

Hypothesis zero_plus_zero : fadd (of_int 0) (of_int 0) = of_int 0.

Lemma fold_left_zeros a : zeros a -> fold_left fadd a (of_int 0) = of_int 0.
Proof.
  induction 1 as [|x a Hx _ IH]; [reflexivity|].
  cbn [fold_left]. now rewrite Hx, zero_plus_zero.
Qed.

Lemma zip_add_zeros r b : zeros r -> zeros b -> zeros (zip_add r b).
Proof.
  intros Hr. revert b. induction Hr as [|x r Hx _ IH]; intros b Hb.
  - constructor.
  - destruct Hb as [|y b Hy Hb]; [constructor|].
    cbn [zip_add]. constructor; [now rewrite Hx, Hy | now apply IH].
Qed.

Lemma zeros_firstn k a : zeros a -> zeros (firstn k a).
Proof.
  intros Ha. revert k. induction Ha as [|x a Hx _ IH]; intros [|k];
    try constructor; [exact Hx | apply IH].
Qed.

Lemma zeros_skipn k a : zeros a -> zeros (skipn k a).
Proof.
  intros Ha. revert k. induction Ha as [|x a Hx Ha IH]; intros [|k];
    try constructor; [exact Hx | exact Ha | apply IH].
Qed.

Lemma add_blocks_zeros k r a :
  zeros r -> zeros a ->
  zeros (fst (add_blocks k r a)) /\ zeros (snd (add_blocks k r a)).
Proof.
  revert r a. induction k as [|k IH]; intros r a Hr Ha; [now split|].
  cbn [add_blocks]. apply IH.
  - apply zip_add_zeros; [exact Hr | now apply zeros_firstn].
  - now apply zeros_skipn.
Qed.

Lemma add_accumulators_zeros r : zeros r -> add_accumulators r = of_int 0.
Proof.
  intros Hr. unfold add_accumulators.
  do 8 (destruct r as [|? r]; [reflexivity|]).
  destruct r; [|reflexivity].
  repeat match goal with
         | H : zeros (_ :: _) |- _ => inversion H; clear H; subst
         | H : Forall _ (_ :: _) |- _ => inversion H; clear H; subst
         end.
  now rewrite !zero_plus_zero.
Qed.

Lemma block_sum_zeros a : zeros a -> block_sum a = of_int 0.
Proof.
  intros Ha. unfold block_sum.
  destruct (@add_blocks_zeros (length a / 8 - 1) (firstn 8 a) (skipn 8 a))
    as [Hr Hrest]; [now apply zeros_firstn | now apply zeros_skipn |].
  destruct (add_blocks _ _ _) as [r rest]. cbn [fst snd] in *.
  rewrite add_accumulators_zeros by exact Hr.
  now apply fold_left_zeros.
Qed.

Lemma pairwise_sum_rec_zeros d a : zeros a -> pairwise_sum_rec d a = of_int 0.
Proof.
  revert a. induction d as [|d IH]; intros a Ha; rewrite pairwise_sum_rec_eq.
  - destruct (length a <? 8); [now apply fold_left_zeros|].
    destruct (length a <=? 128); now apply block_sum_zeros.
  - destruct (length a <? 8); [now apply fold_left_zeros|].
    destruct (length a <=? 128); [now apply block_sum_zeros|].
    rewrite !IH; [exact zero_plus_zero | now apply zeros_skipn
                 | now apply zeros_firstn].
Qed.

Lemma np_sum_zeros a : zeros a -> np_sum a = of_int 0.
Proof.
  intros Ha. unfold np_sum, pairwise_sum.
  now rewrite pairwise_sum_rec_zeros, zero_plus_zero.
Qed.
End Summation.

(** ** Exact arithmetic: what the numpy reductions compute on reals *)

Section MapLists.
Variables (A B : Type) (f : A -> B).

Lemma push_map n l x : push n (map f l) (f x) = map f (push n l x).
Proof.
  unfold push. change [f x] with (map f [x]).
  rewrite <- (map_app f l [x]), length_map.
  destruct (n <? length (l ++ [x])); [|reflexivity].
  now destruct (l ++ [x]).
Qed.

Lemma lastn_map n l : lastn n (map f l) = map f (lastn n l).
Proof. unfold lastn. now rewrite length_map, skipn_map. Qed.

Lemma last_map l d : last (map f l) (f d) = f (last l d).
Proof.
  induction l as [|a l IH]; [reflexivity|].
  cbn [map]. destruct l; [reflexivity|]. exact IH.
Qed.
End MapLists.

Section ExactSums.
Import Exact.
Implicit Types (l : list R) (x c : R).

Lemma Rsum_cons x l : Rsum (x :: l) = (x + Rsum l)%R.
Proof. reflexivity. Qed.

Lemma fold_left_real l a :
  fold_left fadd (map Real l) (Real a) = Real (a + Rsum l).
Proof.
  revert a. induction l as [|x l IH]; intros a; cbn.
  - f_equal. lra.
  - rewrite IH. f_equal. unfold Rsum. lra.
Qed.

Lemma Rsum_app l1 l2 : Rsum (l1 ++ l2) = (Rsum l1 + Rsum l2)%R.
Proof.
  induction l1 as [|a l1 IH].
  - cbn [app]. change (Rsum []) with 0%R. lra.
  - cbn [app]. rewrite !Rsum_cons, IH. lra.
Qed.

Lemma series_sum_real l : series_sum (map Real l) = Real (Rsum l).
Proof.
  unfold series_sum. cbn [of_int ereal_float INR].
  rewrite fold_left_real. f_equal. lra.
Qed.

Lemma Rsum_firstn_skipn k l : (Rsum (firstn k l) + Rsum (skipn k l))%R = Rsum l.
Proof. now rewrite <- Rsum_app, firstn_skipn. Qed.

(** Adding two rows of reals position by position. *)
Fixpoint Rzip (r b : list R) : list R :=
  match r, b with
  | x :: r', y :: b' => (x + y)%R :: Rzip r' b'
  | _, _ => []
  end.

Lemma zip_add_real r b : zip_add (map Real r) (map Real b) = map Real (Rzip r b).
Proof.
  revert b. induction r as [|x r IH]; intros [|y b]; try reflexivity.
  cbn [map zip_add Rzip]. now rewrite IH.
Qed.

Lemma length_Rzip r b : length r = length b -> length (Rzip r b) = length r.
Proof.
  revert b. induction r as [|x r IH]; intros [|y b] H; try reflexivity;
    try discriminate.
  cbn [Rzip length]. f_equal. apply IH. now injection H.
Qed.

Lemma Rsum_Rzip r b :
  length r = length b -> Rsum (Rzip r b) = (Rsum r + Rsum b)%R.
Proof.
  revert b. induction r as [|x r IH]; intros [|y b] H; try discriminate.
  - cbn. lra.
  - cbn [Rzip]. rewrite !Rsum_cons, IH by (now injection H). lra.
Qed.

Lemma add_blocks_real k r l :
  length r = 8 -> 8 * k <= length l ->
  exists r' l',
    add_blocks k (map Real r) (map Real l) = (map Real r', map Real l') /\
    length r' = 8 /\ (Rsum r' + Rsum l')%R = (Rsum r + Rsum l)%R.
Proof.
  revert r l. induction k as [|k IH]; intros r l Hr Hl.
  - exists r, l. now repeat split.
  - cbn [add_blocks]. rewrite firstn_map, skipn_map, zip_add_real.
    assert (Hf : length (firstn 8 l) = 8) by (rewrite length_firstn; lia).
    destruct (IH (Rzip r (firstn 8 l)) (skipn 8 l)) as (r' & l' & E & Hr' & Hs).
    + rewrite length_Rzip; congruence.
    + rewrite length_skipn. lia.
    + exists r', l'. repeat split; [exact E | exact Hr' |].
      rewrite Hs, Rsum_Rzip by congruence.
      rewrite <- (Rsum_firstn_skipn 8 l). lra.
Qed.

Lemma add_accumulators_real r :
  length r = 8 -> add_accumulators (map Real r) = Real (Rsum r).
Proof.
  intros Hr.
  do 8 (destruct r as [|? r]; [discriminate|]).
  destruct r; [|discriminate].
  cbn. f_equal. lra.
Qed.

Lemma block_sum_real l : 8 <= length l -> block_sum (map Real l) = Real (Rsum l).
Proof.
  intros Hl. unfold block_sum.
  rewrite firstn_map, skipn_map, length_map.
  destruct (@add_blocks_real (length l / 8 - 1) (firstn 8 l) (skipn 8 l))
    as (r' & l' & E & Hr' & Hs).
  - rewrite length_firstn. lia.
  - rewrite length_skipn. pose proof (Nat.div_mod_eq (length l) 8). lia.
  - rewrite E, add_accumulators_real, fold_left_real by exact Hr'.
    now rewrite Hs, Rsum_firstn_skipn.
Qed.

Lemma pairwise_sum_rec_real d l :
  pairwise_sum_rec d (map Real l) = Real (Rsum l).
Proof.
  revert l. induction d as [|d IH]; intros l;
    rewrite pairwise_sum_rec_eq, length_map.
  - destruct (length l <? 8) eqn:E8.
    + apply series_sum_real.
    + apply Nat.ltb_ge in E8.
      destruct (length l <=? 128); now apply block_sum_real.
  - destruct (length l <? 8) eqn:E8; [apply series_sum_real|].
    apply Nat.ltb_ge in E8.
    destruct (length l <=? 128); [now apply block_sum_real|].
    rewrite firstn_map, skipn_map, !IH.
    cbn [fadd ereal_float lift2]. now rewrite Rsum_firstn_skipn.
Qed.

(** On reals numpy's blocks add up to the plain sum. *)
Lemma np_sum_real l : np_sum (map Real l) = Real (Rsum l).
Proof.
  unfold np_sum, pairwise_sum. rewrite pairwise_sum_rec_real.
  cbn. f_equal. lra.
Qed.

Lemma ediv_real x y : y <> 0%R -> ediv (Real x) (Real y) = Real (x / y).
Proof. intros Hy. unfold ediv. now destruct (Req_dec_T y 0). Qed.

Lemma esqrt_real x : (0 <= x)%R -> esqrt (Real x) = Real (R_sqrt.sqrt x).
Proof. intros Hx. unfold esqrt. destruct (Rlt_dec x 0); [lra|reflexivity]. Qed.

Lemma eeq_real x y : eeq (Real x) (Real y) = true <-> x = y.
Proof. unfold eeq. destruct (Req_dec_T x y); split; congruence. Qed.

Lemma INR_pos n : 1 <= n -> (0 < INR n)%R.
Proof. intros. apply lt_0_INR. lia. Qed.

Lemma np_mean_real l : l <> [] -> np_mean (map Real l) = Real (Rmean l).
Proof.
  intros Hl. unfold np_mean. rewrite np_sum_real, length_map.
  cbn [of_int fdiv ereal_float]. apply ediv_real.
  apply Rgt_not_eq, INR_pos. destruct l; [congruence | cbn; lia].
Qed.

Lemma Rsum_squares_nonneg (g : R -> R) l :
  (0 <= Rsum (map (fun v => g v * g v) l))%R.
Proof.
  induction l as [|x l IH]; [cbn; lra|].
  cbn [map]. rewrite Rsum_cons.
  pose proof (Rle_0_sqr (g x)) as H. unfold Rsqr in H. lra.
Qed.

Lemma Rvar_nonneg l : 2 <= length l -> (0 <= Rvar l)%R.
Proof.
  intros Hl. unfold Rvar. apply Rmult_le_pos.
  - apply (Rsum_squares_nonneg (fun v => (v - Rmean l)%R)).
  - left. apply Rinv_0_lt_compat, INR_pos. lia.
Qed.

Lemma np_std_real l :
  2 <= length l -> np_std (map Real l) 1 = Real (R_sqrt.sqrt (Rvar l)).
Proof.
  intros Hl. unfold np_std.
  rewrite np_mean_real by (destruct l; [cbn in Hl; lia | congruence]).
  rewrite !map_map. cbn [fsub fmul ereal_float lift2].
  rewrite <- (map_map (fun v => ((v - Rmean l) * (v - Rmean l))%R) Real).
  rewrite np_sum_real, length_map.
  cbn [fdiv fsqrt of_int ereal_float].
  rewrite ediv_real by (apply Rgt_not_eq, INR_pos; lia).
  apply esqrt_real, Rvar_nonneg, Hl.
Qed.

Lemma Rsum_shift c l :
  Rsum (map (fun r => (r - c)%R) l) = (Rsum l - INR (length l) * c)%R.
Proof.
  induction l as [|x l IH]; [cbn; lra|].
  cbn [map length]. rewrite !Rsum_cons, IH, S_INR. lra.
Qed.

Lemma Rmean_shift c l :
  l <> [] -> Rmean (map (fun r => (r - c)%R) l) = (Rmean l - c)%R.
Proof.
  intros Hl. unfold Rmean. rewrite Rsum_shift, length_map.
  field. apply Rgt_not_eq, INR_pos. destruct l; [congruence | cbn; lia].
Qed.

(** Subtracting a constant from every element leaves the variance as it was. *)
Lemma Rvar_shift c l :
  l <> [] -> Rvar (map (fun r => (r - c)%R) l) = Rvar l.
Proof.
  intros Hl. unfold Rvar. rewrite Rmean_shift by exact Hl.
  rewrite map_map, length_map. f_equal. f_equal.
  apply map_ext. intros v. lra.
Qed.

Lemma Rsum_repeat x n : Rsum (repeat x n) = (INR n * x)%R.
Proof.
  induction n as [|n IH]; [cbn; lra|].
  cbn [repeat]. rewrite Rsum_cons, IH, S_INR. lra.
Qed.

Lemma Rvar_repeat x n : 1 <= n -> Rvar (repeat x n) = 0%R.
Proof.
  intros Hn. unfold Rvar.
  assert (Hm : Rmean (repeat x n) = x).
  { unfold Rmean. rewrite Rsum_repeat, repeat_length. field.
    apply Rgt_not_eq, INR_pos, Hn. }
  rewrite Hm.
  replace (map (fun v => ((v - x) * (v - x))%R) (repeat x n))
    with (repeat 0%R n).
  - rewrite Rsum_repeat. unfold Rdiv. now rewrite Rmult_0_r, Rmult_0_l.
  - clear. induction n as [|n IH]; [reflexivity|].
    cbn [repeat map]. rewrite <- IH. f_equal. lra.
Qed.
End ExactSums.

(** ** Exact arithmetic: the states that real prices reach *)

Section ExactStates.
Import Exact.
Implicit Types (lp lr : list R) (p x : R).

Lemma length_push_le (A : Type) w (l : list A) a :
  1 <= w -> length l <= w -> length (push w l a) <= w.
Proof.
  intros Hw Hl. unfold push. rewrite length_app. cbn [length].
  destruct (Nat.ltb_spec w (length l + 1));
    [|rewrite length_app; cbn [length]; lia].
  destruct l; cbn [app tl length]; [lia|].
  rewrite length_app. cbn [length] in *. lia.
Qed.

Lemma evicted_real w l x :
  1 <= w -> length l <= w ->
  fadd (evicted w (map Real l) (Real (Rsum l))) (Real x)
  = Real (Rsum (push w l x)).
Proof.
  intros Hw Hl. unfold evicted, push. rewrite length_map, length_app.
  cbn [length].
  destruct (Nat.eqb_spec (length l) w) as [E|E].
  - destruct l as [|a l]; [cbn in E; lia|].
    replace (w <? length (a :: l) + 1) with true
      by (symmetry; apply Nat.ltb_lt; lia).
    cbn [map app tl fadd fsub ereal_float lift2].
    rewrite Rsum_app, Rsum_cons. cbn. f_equal. lra.
  - replace (w <? length l + 1) with false
      by (symmetry; apply Nat.ltb_ge; lia).
    cbn [fadd ereal_float lift2]. rewrite Rsum_app. cbn. f_equal. lra.
Qed.

Lemma update_real w lp lr p :
  1 <= w -> length lp <= w -> length lr <= w ->
  update (Real p) (real_state w lp lr) =
  if 1 <? length (push w lp p) then
    if Req_dec_T (last lp p) 0
    then Raise ZeroDivisionError (real_state w (push w lp p) lr)
    else Ok tt (real_state w (push w lp p)
                           (push w lr (p / last lp p - 1)%R))
  else Ok tt (real_state w (push w lp p) lr).
Proof.
  intros Hw Hp Hr. unfold real_state at 1.
  rewrite update_closed by exact Hw. cbv zeta.
  rewrite push_map, length_map, evicted_real by assumption.
  rewrite last_map.
  destruct (1 <? length (push w lp p)); [|reflexivity].
  cbn [feq of_int ereal_float eeq INR].
  destruct (Req_dec_T (last lp p) 0) as [E|E]; [reflexivity|].
  assert (Hr' : simple_return (Real (last lp p)) (Real p)
                = Real (p / last lp p - 1)).
  { unfold simple_return. cbn [fdiv fsub of_int ereal_float].
    rewrite ediv_real by exact E. cbn. reflexivity. }
  rewrite Hr', push_map, evicted_real by assumption. reflexivity.
Qed.

(** Real prices keep the state real and the sums in step with the buffers. *)
Lemma updates_real w (ps : list R) :
  1 <= w ->
  exists lr, length lr <= w /\
    updates (init w) (map Real ps) = real_state w (lastn w ps) lr.
Proof.
  intros Hw. induction ps as [|p ps IH] using rev_ind.
  - exists []. split; [cbn; lia|]. reflexivity.
  - destruct IH as (lr & Hlr & IH).
    rewrite map_app. cbn [map]. rewrite updates_snoc, IH.
    assert (Hlp : length (lastn w ps) <= w) by (rewrite length_lastn; lia).
    rewrite update_real by assumption. rewrite push_lastn.
    destruct (1 <? _); [destruct (Req_dec_T _ _)|]; cbn [state_of].
    + exists lr. now split.
    + eexists. split; [|reflexivity]. now apply length_push_le.
    + exists lr. now split.
Qed.

Lemma running_sum_is_buffer_sum w (ps : list R) :
  1 <= w ->
  sum_prices (updates (init w) (map Real ps))
  = np_sum (items (prices (updates (init w) (map Real ps)))).
Proof.
  intros Hw. destruct (updates_real ps Hw) as (lr & _ & ->).
  unfold real_state. cbn [sum_prices prices items].
  now rewrite np_sum_real.
Qed.

Lemma mean_price_real w lp lr :
  lp <> [] ->
  mean_price (real_state w lp lr) = Ok (Real (Rmean lp)) (real_state w lp lr).
Proof.
  intros Hl. unfold mean_price. rewrite bind_get.
  unfold real_state at 1. unfold len. cbn [prices items].
  rewrite length_map.
  destruct lp as [|a lp]; [congruence|]. cbn [length Nat.eqb negb].
  rewrite bind_get, bind_get. unfold ret.
  unfold real_state at 1 2. unfold len.
  cbn [sum_prices prices items fdiv of_int ereal_float].
  rewrite length_map, ediv_real; [reflexivity|].
  apply Rgt_not_eq, INR_pos. cbn. lia.
Qed.

Lemma sqrt_252_real : fsqrt (of_int 252) = Real (R_sqrt.sqrt (INR 252)).
Proof.
  cbn [fsqrt of_int ereal_float]. apply esqrt_real. apply pos_INR.
Qed.

Lemma volatility_real (st : RealTimeAnalytics ereal) lr :
  items (returns st) = map Real lr -> 2 <= length lr ->
  volatility st =
  Ok (Real (R_sqrt.sqrt (Rvar lr) * R_sqrt.sqrt (INR 252))) st.
Proof.
  intros Hi Hl. unfold volatility. rewrite bind_get. unfold len.
  rewrite Hi, length_map.
  replace (length lr <? 2) with false by (symmetry; apply Nat.ltb_ge; lia).
  rewrite bind_get, Hi. unfold ret.
  rewrite np_std_real by exact Hl. rewrite sqrt_252_real. reflexivity.
Qed.

Lemma excess_real rf lr :
  map (fun r => fsub r (fdiv (Real rf) (of_int 252))) (map Real lr)
  = map Real (map (fun r => (r - rf / INR 252)%R) lr).
Proof.
  rewrite !map_map. apply map_ext. intros r.
  cbn [fdiv fsub of_int ereal_float].
  rewrite ediv_real; [reflexivity|].
  apply Rgt_not_eq, INR_pos. lia.
Qed.

(** [sharpe] on real returns: the guard tests the standard deviation of
    the returns themselves, whatever the rate. *)
Lemma sharpe_real (st : RealTimeAnalytics ereal) lr rf :
  items (returns st) = map Real lr -> 2 <= length lr ->
  sharpe (Real rf) st =
  Ok (if Req_dec_T (R_sqrt.sqrt (Rvar lr)) 0 then NaN
      else Real (R_sqrt.sqrt (INR 252) * (Rmean lr - rf / INR 252)
                 / R_sqrt.sqrt (Rvar lr))) st.
Proof.
  intros Hi Hl.
  assert (Hne : lr <> []) by (destruct lr; [cbn in Hl; lia | congruence]).
  unfold sharpe. rewrite bind_get. unfold len.
  rewrite Hi, length_map.
  replace (length lr <? 2) with false by (symmetry; apply Nat.ltb_ge; lia).
  rewrite bind_get, Hi. cbv zeta. rewrite excess_real.
  rewrite np_std_real by (now rewrite length_map).
  rewrite np_mean_real
    by (destruct lr; [congruence | cbn; congruence]).
  rewrite Rvar_shift, Rmean_shift by exact Hne.
  rewrite sqrt_252_real.
  cbn [feq of_int ereal_float eeq INR].
  destruct (Req_dec_T (R_sqrt.sqrt (Rvar lr)) 0) as [E|E]; cbn [negb].
  - reflexivity.
  - unfold ret. cbn [fmul fdiv ereal_float lift2].
    now rewrite ediv_real by exact E.
Qed.

Local Unset Implicit Arguments.

Lemma nonzero_real (p : R) : p <> 0%R -> nonzero (Real p).
Proof.
  intros Hp. unfold nonzero. cbn [feq of_int ereal_float eeq INR].
  destruct (Req_dec_T p 0); congruence.
Qed.

Lemma returns_from_constant (p : R) (k : nat) :
  p <> 0%R -> returns_from (Real p) (repeat (Real p) k) = repeat (Real 0) k.
Proof.
  intros Hp. induction k as [|k IH]; [reflexivity|].
  cbn [repeat returns_from]. rewrite IH. f_equal.
  unfold simple_return. cbn [fdiv fsub of_int ereal_float].
  rewrite ediv_real by exact Hp. cbn. f_equal. field. exact Hp.
Qed.

Lemma lastn_repeat (A : Type) (x : A) (w k : nat) :
  lastn w (repeat x k) = repeat x (Nat.min k w).
Proof.
  unfold lastn. rewrite repeat_length.
  replace (repeat x k) with (repeat x (k - w) ++ repeat x (Nat.min k w)).
  - rewrite <- (repeat_length x (k - w)) at 1.
    now rewrite skipn_app, skipn_all, Nat.sub_diag.
  - rewrite <- repeat_app. f_equal. lia.
Qed.

Lemma constant_returns (w n : nat) (p : R) :
  2 <= w -> p <> 0%R ->
  items (returns (updates (init w) (map Real (repeat p n))))
  = map Real (repeat 0%R (Nat.min (n - 1) w)).
Proof.
  intros Hw Hp. rewrite map_repeat.
  rewrite updates_returns.
  - destruct n as [|n]; [reflexivity|].
    cbn [repeat simple_returns]. rewrite returns_from_constant by exact Hp.
    rewrite lastn_repeat, map_repeat. f_equal. lia.
  - exact Hw.
  - apply Forall_removelast. apply Forall_forall.
    intros x Hx. apply repeat_spec in Hx. subst x. now apply nonzero_real.
Qed.

(** Over exact arithmetic the running price sum is the buffer's sum, so
    [mean_price] is determined by the price buffer of a reached state. *)
Lemma mean_price_of_buffer (w1 w2 : nat) (ps1 ps2 : list R) :
  1 <= w1 -> 1 <= w2 ->
  let st1 := updates (init w1) (map Real ps1) in
  let st2 := updates (init w2) (map Real ps2) in
  items (prices st1) = items (prices st2) ->
  answer st1 QMean = answer st2 QMean.
Proof.
  intros H1 H2 st1 st2 E. cbn [answer]. unfold len. rewrite E.
  destruct (length _ =? 0); [reflexivity|]. f_equal.
  pose proof (@running_sum_is_buffer_sum w1 ps1 H1) as S1.
  pose proof (@running_sum_is_buffer_sum w2 ps2 H2) as S2.
  fold st1 in S1. fold st2 in S2. now rewrite S1, S2, E.
Qed.
End ExactStates.

(** ** A constant price, in an arithmetic with a few laws of zero *)

Section ConstantSeries.
Context {F : Type} {PF : PyFloat F}.
Local Unset Implicit Arguments.
Variables (w n : nat) (x : F).

Hypothesis price_nonzero : nonzero x.
Hypothesis price_by_itself : simple_return x x = of_int 0.
Hypothesis zero_plus_zero : fadd (of_int 0) (of_int 0) = of_int 0.
Hypothesis zero_minus_zero : fsub (of_int 0) (of_int 0) = of_int 0.
Hypothesis zero_times_zero : fmul (of_int 0) (of_int 0) = of_int 0.
Hypothesis zero_by_count :
  forall j, 1 <= j <= Nat.min (n - 1) w -> fdiv (of_int 0) (of_int j) = of_int 0.
Hypothesis root_of_zero :
  fmul (fsqrt (of_int 0)) (fsqrt (of_int 252)) = of_int 0.

Lemma returns_from_same (k : nat) :
  returns_from x (repeat x k) = repeat (of_int 0) k.
Proof.
  induction k as [|k IH]; [reflexivity|].
  cbn [repeat returns_from]. now rewrite IH, price_by_itself.
Qed.

Lemma constant_series_returns :
  2 <= w ->
  items (returns (updates (init w) (repeat x n)))
  = repeat (of_int 0) (Nat.min (n - 1) w).
Proof.
  clear zero_by_count. intros Hw. rewrite updates_returns.
  - destruct n as [|k]; [reflexivity|].
    cbn [repeat simple_returns]. rewrite returns_from_same, lastn_repeat.
    f_equal. lia.
  - exact Hw.
  - apply Forall_removelast. apply Forall_forall.
    intros y Hy. apply repeat_spec in Hy. now subst y.
Qed.

Lemma zeros_repeat (k : nat) : zeros (repeat (of_int 0 : F) k).
Proof. apply Forall_forall. intros y Hy. now apply repeat_spec in Hy. Qed.

Lemma np_std_zeros (k : nat) :
  2 <= k <= Nat.min (n - 1) w ->
  np_std (repeat (of_int 0) k) 1 = fsqrt (of_int 0).
Proof.
  intros Hk. unfold np_std, np_mean.
  rewrite (np_sum_zeros zero_plus_zero (zeros_repeat k)), repeat_length.
  rewrite zero_by_count by lia.
  rewrite !map_repeat, zero_minus_zero, zero_times_zero.
  rewrite (np_sum_zeros zero_plus_zero (zeros_repeat k)).
  now rewrite zero_by_count by lia.
Qed.

Lemma constant_series_volatility :
  2 <= w -> 3 <= n ->
  let st := updates (init w) (repeat x n) in
  volatility st = Ok (of_int 0) st.
Proof.
  intros Hw Hn st. pose proof (constant_series_returns Hw) as Hr.
  fold st in Hr. unfold volatility. rewrite bind_get. unfold len.
  rewrite Hr, repeat_length.
  replace (Nat.min (n - 1) w <? 2) with false
    by (symmetry; apply Nat.ltb_ge; lia).
  rewrite bind_get, Hr, np_std_zeros by lia.
  unfold ret. now rewrite root_of_zero.
Qed.
End ConstantSeries.

(** ** binary64: a finite price divided by itself, and zero divided by a count *)

Section Binary64Zero.
Import Binary64.
Local Unset Implicit Arguments.

Lemma div_eucl_shifted (m : positive) :
  Z.div_eucl (Z.shiftl (Zpos m) 53) (Zpos m) = (2 ^ 53, 0)%Z.
Proof.
  rewrite Z.shiftl_mul_pow2, Z.mul_comm by lia.
  rewrite (surjective_pairing (Z.div_eucl _ _)).
  change (fst (Z.div_eucl ?a ?b)) with (Z.div a b).
  change (snd (Z.div_eucl ?a ?b)) with (Z.modulo a b).
  rewrite Z.div_mul, Z.mod_mul by lia. reflexivity.
Qed.

(** The quotient of a finite number by itself is 1: the mantissas cancel
    and nothing is rounded. *)
Lemma SF64div_self (s : bool) (m : positive) (e : Z) :
  SF64div (S754_finite s m e) (S754_finite s m e)
  = S754_finite false 4503599627370496 (-52).
Proof.
  unfold SF64div, SFdiv, SFdiv_core_binary. cbv zeta.
  rewrite !Z.sub_diag.
  change (IntDef.Z.min (fexp prec emax 0) 0) with (-53)%Z.
  change (0 - -53)%Z with 53%Z. cbv iota.
  change IntDef.Z.div_eucl with Z.div_eucl.
  change IntDef.Z.shiftl with Z.shiftl.
  rewrite div_eucl_shifted.
  unfold new_location, new_location_even, new_location_odd.
  change (Z.eqb 0 0) with true. cbv iota.
  rewrite xorb_nilpotent.
  destruct (Z.even (Z.pos m)); vm_compute; reflexivity.
Qed.

(** A float that is finite and not zero has a sign, a mantissa and an
    exponent. *)
Lemma finite_nonzero_spec (x : float) :
  is_finite x = true -> is_zero x = false ->
  exists s m e, Prim2SF x = S754_finite s m e.
Proof.
  unfold is_finite, is_nan, is_infinity, is_zero.
  rewrite !eqb_spec, abs_spec.
  destruct (Prim2SF x) as [s|s| |s m e]; intros Hf Hz.
  - destruct s; discriminate Hz.
  - destruct s; discriminate Hf.
  - discriminate Hf.
  - now exists s, m, e.
Qed.

Lemma div_self (x : float) :
  is_finite x = true -> is_zero x = false -> (x / x)%float = 1%float.
Proof.
  intros Hf Hz. destruct (finite_nonzero_spec x Hf Hz) as (s & m & e & H).
  apply Prim2SF_inj. rewrite div_spec, H, SF64div_self. reflexivity.
Qed.

Lemma zero_div_positive (x : float) (m : positive) (e : Z) :
  Prim2SF x = S754_finite false m e -> (0 / x)%float = 0%float.
Proof.
  intros H. apply Prim2SF_inj. rewrite div_spec, H. reflexivity.
Qed.

(** The digits of a mantissa: shifted left, bounded, incremented. *)
Lemma digits2_pos_shifted (m j : positive) :
  digits2_pos (Pos.iter xO m j) = (digits2_pos m + j)%positive.
Proof.
  induction j as [|j IH] using Pos.peano_ind.
  - cbn. lia.
  - rewrite Pos.iter_succ. cbn [digits2_pos]. rewrite IH. lia.
Qed.

Lemma digits2_pos_lower (m : positive) :
  (2 ^ (Zpos (digits2_pos m) - 1) <= Zpos m)%Z.
Proof.
  induction m as [m IH|m IH|]; cbn [digits2_pos]; [| |cbn; lia].
  - rewrite Pos2Z.inj_succ.
    replace (Z.succ (Zpos (digits2_pos m)) - 1)%Z
      with (Z.succ (Zpos (digits2_pos m) - 1)) by lia.
    rewrite Z.pow_succ_r by lia. lia.
  - rewrite Pos2Z.inj_succ.
    replace (Z.succ (Zpos (digits2_pos m)) - 1)%Z
      with (Z.succ (Zpos (digits2_pos m) - 1)) by lia.
    rewrite Z.pow_succ_r by lia. lia.
Qed.

Lemma digits2_pos_below (m : positive) (b : Z) :
  (0 <= b)%Z -> (Zpos m < 2 ^ b)%Z -> (Zpos (digits2_pos m) <= b)%Z.
Proof.
  intros Hb H. pose proof (digits2_pos_lower m) as Hl.
  destruct (Z_le_gt_dec (Zpos (digits2_pos m)) b) as [|Hgt]; [assumption|].
  exfalso.
  assert (2 ^ b <= 2 ^ (Zpos (digits2_pos m) - 1))%Z
    by (apply Z.pow_le_mono_r; lia).
  lia.
Qed.

Lemma digits2_pos_succ (q : positive) :
  (Zpos (digits2_pos (Pos.succ q)) <= Zpos (digits2_pos q) + 1)%Z.
Proof.
  induction q as [q IH|q IH|]; cbn [Pos.succ digits2_pos]; lia.
Qed.

(** The mantissa of a shift record, with its number of digits. *)
Definition mantissa_digits (mrs : shr_record) (c : Z) : Prop :=
  exists q, shr_m mrs = Zpos q /\ Zpos (digits2_pos q) = c.

Lemma shr_1_digits (mrs : shr_record) (c : Z) :
  (1 < c)%Z -> mantissa_digits mrs c -> mantissa_digits (shr_1 mrs) (c - 1).
Proof.
  intros Hc (q & Hq & Hd). destruct mrs as [m r s]. cbn [shr_m] in Hq.
  subst m. destruct q as [q|q|]; cbn [digits2_pos] in Hd.
  - exists q. cbn. split; [reflexivity | lia].
  - exists q. cbn. split; [reflexivity | lia].
  - cbn in Hd. lia.
Qed.

Lemma iter_shr_1_digits (n : positive) (mrs : shr_record) (c : Z) :
  (Zpos n < c)%Z -> mantissa_digits mrs c ->
  mantissa_digits (iter_pos shr_1 n mrs) (c - Zpos n).
Proof.
  revert mrs c. induction n as [n IH|n IH|]; intros mrs c Hc H;
    cbn [iter_pos].
  - replace (c - Zpos n~1)%Z with (c - 1 - Zpos n - Zpos n)%Z by lia.
    apply IH; [lia|]. apply IH; [lia|]. apply shr_1_digits; [lia | exact H].
  - replace (c - Zpos n~0)%Z with (c - Zpos n - Zpos n)%Z by lia.
    apply IH; [lia|]. apply IH; [lia | exact H].
  - apply shr_1_digits; [lia | exact H].
Qed.

(** Shifting a positive mantissa to the format leaves a positive mantissa
    of 53 digits at most. *)
Lemma shr_fexp_positive (mz : positive) (ez : Z) (l : location) :
  (-1074 <= ez)%Z ->
  exists mrs e' q,
    shr_fexp prec emax (Zpos mz) ez l = (mrs, e') /\
    shr_m mrs = Zpos q /\
    (Zpos (digits2_pos q) <= 53)%Z /\
    (ez <= e' <= ez + Z.max 0 (Zpos (digits2_pos mz) - 53))%Z.
Proof.
  intros He. unfold shr_fexp, shr. cbn [Zdigits2].
  set (d := Zpos (digits2_pos mz)).
  assert (Hn : (fexp prec emax (d + ez) - ez = Z.max (d - 53) (-1074 - ez))%Z)
    by (unfold fexp, emin, prec, emax; lia).
  rewrite Hn.
  assert (H0 : mantissa_digits (shr_record_of_loc (Zpos mz) l) d).
  { exists mz. split; [|reflexivity]. now destruct l as [|[]]. }
  destruct (Z.max (d - 53) (-1074 - ez)) as [|n|n] eqn:En.
  - destruct H0 as (q & Hq & Hd). eexists _, _, q.
    split; [reflexivity|]. split; [exact Hq|]. lia.
  - destruct (iter_shr_1_digits n _ d ltac:(lia) H0) as (q & Hq & Hd).
    eexists _, _, q. split; [reflexivity|]. split; [exact Hq|]. lia.
  - destruct H0 as (q & Hq & Hd). eexists _, _, q.
    split; [reflexivity|]. split; [exact Hq|]. lia.
Qed.

Lemma round_nearest_even_positive (q : positive) (l : location) :
  exists q', round_nearest_even (Zpos q) l = Zpos q' /\
             (Zpos (digits2_pos q') <= Zpos (digits2_pos q) + 1)%Z.
Proof.
  pose proof (digits2_pos_succ q) as Hs.
  assert (Hq : (Zpos q + 1 = Zpos (Pos.succ q))%Z) by lia.
  destruct l as [|[]]; cbn [round_nearest_even];
    try destruct (Z.even (Zpos q));
    try (exists q; split; [reflexivity | lia]);
    exists (Pos.succ q); (split; [exact Hq | lia]).
Qed.

Lemma binary_round_aux_positive (mz : positive) (ez : Z) :
  (-1074 <= ez)%Z -> (ez + Z.max 0 (Zpos (digits2_pos mz) - 53) <= 970)%Z ->
  exists m e,
    binary_round_aux prec emax false (Zpos mz) ez loc_Exact
    = S754_finite false m e.
Proof.
  intros Hlo Hhi. unfold binary_round_aux.
  destruct (shr_fexp_positive mz ez loc_Exact Hlo)
    as (mrs1 & e1 & q1 & -> & Hq1 & Hd1 & He1).
  rewrite Hq1.
  destruct (round_nearest_even_positive q1 (loc_of_shr_record mrs1))
    as (q2 & -> & Hd2).
  destruct (shr_fexp_positive q2 e1 loc_Exact ltac:(lia))
    as (mrs2 & e2 & q3 & -> & -> & Hd3 & He2).
  replace (e2 <=? emax - prec)%Z with true.
  - now exists q3, e2.
  - symmetry. apply Z.leb_le. unfold emax, prec. lia.
Qed.

Lemma binary_round_positive (m : positive) :
  (Zpos m < 2 ^ 63)%Z ->
  exists mz ez, binary_round prec emax false m 0 = S754_finite false mz ez.
Proof.
  intros Hm. pose proof (digits2_pos_below m 63 ltac:(lia) Hm) as Hd.
  unfold binary_round, shl_align.
  replace (fexp prec emax (Zpos (digits2_pos m) + 0) - 0)%Z
    with (Zpos (digits2_pos m) - 53)%Z
    by (unfold fexp, emin, prec, emax; lia).
  destruct (Zpos (digits2_pos m) - 53)%Z as [|j|j] eqn:Ej.
  - apply binary_round_aux_positive; lia.
  - apply binary_round_aux_positive; lia.
  - apply binary_round_aux_positive.
    + unfold fexp, emin, prec, emax. lia.
    + rewrite digits2_pos_shifted. unfold fexp, emin, prec, emax. lia.
Qed.

(** The float of a count from 1 to 2^63 - 1, the most a deque holds, is
    finite and positive. *)
Lemma of_int_positive (k : nat) :
  1 <= k -> (Z.of_nat k < 2 ^ 63)%Z ->
  exists m e, Prim2SF (of_int k) = S754_finite false m e.
Proof.
  intros H1 Hk. cbn [of_int binary64].
  rewrite of_uint63_spec, Uint63.of_Z_spec.
  rewrite Z.mod_small by (split; [lia | exact Hk]).
  destruct (Z.of_nat k) as [|m|m] eqn:E; [lia| |lia].
  cbn [binary_normalize]. now apply binary_round_positive.
Qed.

Lemma zero_by_count_binary64 (k : nat) :
  1 <= k -> (Z.of_nat k < 2 ^ 63)%Z ->
  fdiv (of_int 0) (of_int k) = (of_int 0 : float).
Proof.
  intros H1 Hk. destruct (of_int_positive k H1 Hk) as (m & e & H).
  exact (zero_div_positive _ m e H).
Qed.

Lemma price_nonzero_binary64 (x : float) : is_zero x = false -> nonzero x.
Proof. intros Hz. exact Hz. Qed.

Lemma price_by_itself_binary64 (x : float) :
  is_finite x = true -> is_zero x = false ->
  simple_return x x = (of_int 0 : float).
Proof.
  intros Hf Hz. unfold simple_return. cbn [fdiv fsub binary64].
  now rewrite div_self.
Qed.
End Binary64Zero.

(** ** The queries *)

Section Queries.
Context {F : Type} {PF : PyFloat F}.

Lemma np_std_sample_stdev (a : list F) : np_std a 1 = sample_stdev a.
Proof. unfold np_std, sample_stdev. now rewrite map_map. Qed.

Lemma ask_answer (self : RealTimeAnalytics F) (q : query) :
  ask q self = Ok (answer self q) self.
Proof.
  destruct q as [| |rf]; cbn [ask answer].
  - unfold mean_price. rewrite bind_get.
    destruct (len (prices self) =? 0); reflexivity.
  - unfold volatility. rewrite bind_get. unfold len.
    destruct (length (items (returns self)) <? 2); [reflexivity|].
    rewrite bind_get. now rewrite np_std_sample_stdev.
  - unfold sharpe. rewrite bind_get. unfold len.
    destruct (length (items (returns self)) <? 2); [reflexivity|].
    rewrite bind_get. cbv zeta. rewrite np_std_sample_stdev.
    fold (excess_returns rf (items (returns self))).
    destruct (feq _ _); reflexivity.
Qed.

Lemma ask_all_answers (self : RealTimeAnalytics F) (qs : list query) :
  ask_all qs self = Ok (map (answer self) qs) self.
Proof.
  induction qs as [|q qs IH]; [reflexivity|].
  cbn [ask_all map].
  rewrite (@bind_ok _ _ _ _ _ _ _ _ (ask_answer self q)).
  rewrite (@bind_ok _ _ _ _ _ _ _ _ IH). reflexivity.
Qed.
(** One pass of the loop in [process_stream]: the call of [update], then the
    three answers on the state it left. *)
Lemma tick_after_update (p : F) (self : RealTimeAnalytics F) :
  tick p self =
  match update p self with
  | Ok _ self' =>
      Ok (Row p (answer self' QMean) (answer self' QVolatility)
              (answer self' (QSharpe risk_free_default))) self'
  | Raise e self' => Raise e self'
  end.
Proof.
  unfold tick. unfold bind at 1.
  destruct (update p self) as [[] self'|e self']; [|reflexivity].
  change mean_price with (ask QMean).
  change volatility with (ask QVolatility).
  change (sharpe risk_free_default) with (ask (QSharpe risk_free_default)).
  rewrite (@bind_ok _ _ _ _ _ _ _ _ (ask_answer self' QMean)).
  rewrite (@bind_ok _ _ _ _ _ _ _ _ (ask_answer self' QVolatility)).
  rewrite (@bind_ok _ _ _ _ _ _ _ _
             (ask_answer self' (QSharpe risk_free_default))).
  reflexivity.
Qed.

(** A loop that ran to its end made every call of [updates] and one row
    per price. *)
Lemma ticks_returned (ps : list F) (self self' : RealTimeAnalytics F)
      (df : list (row F)) :
  ticks ps self = Ok df self' ->
  self' = updates self ps /\ length df = length ps.
Proof.
  revert self df. induction ps as [|p ps IH]; intros self df H.
  - cbn in H. injection H as <- <-. split; reflexivity.
  - cbn [ticks] in H. unfold bind at 1 in H. rewrite tick_after_update in H.
    unfold updates. cbn [fold_left]. fold (updates (state_of (update p self)) ps).
    destruct (update p self) as [[] s1|e s1]; [|discriminate].
    unfold bind at 1 in H.
    destruct (ticks ps s1) as [rows s2|e s2] eqn:Ht; [|discriminate].
    cbn in H. injection H as <- <-.
    destruct (IH _ _ Ht) as [-> Hl]. cbn [state_of length]. split; congruence.
Qed.
End Queries.

(** * The specification, statement by statement *)

Unset Implicit Arguments.
Import Exact Binary64.

(** ** C1: the running sums and the buffers *)

(** C1 (exact arithmetic).  For every window size [w >= 1] and every finite
    sequence of [update] calls on real prices, whether a call returned or
    raised, the running price sum equals the sum of the price buffer and
    the running return sum equals the sum of the return buffer, and both
    are real numbers. *)
Theorem running_sums_equal_buffer_sums (w : nat) (ps : list R) :
  1 <= w ->
  let st := updates (init w) (map Real ps) in
  sum_prices st = series_sum (items (prices st)) /\
  sum_returns st = series_sum (items (returns st)) /\
  exists s r : R, sum_prices st = Real s /\ sum_returns st = Real r.
Proof.
  intros Hw st. subst st.
  destruct (updates_real ps Hw) as (lr & _ & ->).
  unfold real_state. cbn [sum_prices sum_returns prices returns items].
  rewrite !series_sum_real. repeat split; eauto.
Qed.

Lemma running_sums_equal_buffer_sums_witness :
  1 <= 3 /\
  let st := updates (init 3) (map Real [100; 102; 101; 105]%R) in
  sum_prices st = series_sum (items (prices st)) /\
  sum_returns st = series_sum (items (returns st)) /\
  exists s r : R, sum_prices st = Real s /\ sum_returns st = Real r.
Proof.
  split; [lia|].
  apply (running_sums_equal_buffer_sums 3 [100; 102; 101; 105]%R). lia.
Defined.

(** C1, on binary64.  Window 2, prices 1e16, 1, 1: the second call rounds
    [1e16 + 1] to [1e16], the third subtracts the evicted [1e16] and adds
    1.  The buffer holds [1; 1], whose sum is 2; the running sum is 1. *)
Lemma running_sum_drifts_on_binary64 :
  let st := updates (init 2) [1e16; 1; 1]%float in
  items (prices st) = [1; 1]%float /\
  series_sum (items (prices st)) = 2%float /\
  sum_prices st = 1%float /\
  sum_prices st <> series_sum (items (prices st)).
Proof.
  vm_compute. repeat split; try reflexivity. intros E.
  apply (f_equal (fun x => PrimFloat.eqb x 1)) in E. vm_compute in E.
  discriminate.
Qed.

(** ** C2: the price window and its mean *)

(** C2 (exact arithmetic).  For every window size [w >= 1] and every
    non-empty sequence of real prices, after all the calls the price buffer
    holds exactly the last [min n w] prices in arrival order (the whole
    sequence when [n <= w]) and [mean_price] returns their arithmetic
    mean, leaving the state as it was. *)
Theorem price_window_and_mean (w : nat) (ps : list R) :
  1 <= w -> ps <> [] ->
  let st := updates (init w) (map Real ps) in
  let recent := lastn w ps in
  items (prices st) = map Real recent /\
  length recent = Nat.min (length ps) w /\
  (length ps <= w -> recent = ps) /\
  mean_price st = Ok (Real (Rsum recent / INR (length recent))) st.
Proof.
  intros Hw Hps st recent. subst st recent.
  destruct (updates_real ps Hw) as (lr & _ & ->).
  repeat split.
  - apply length_lastn.
  - apply lastn_all.
  - apply mean_price_real. intros E.
    apply (f_equal (@length R)) in E. rewrite length_lastn in E.
    destruct ps; [congruence | cbn [length] in E; lia].
Qed.

Lemma price_window_and_mean_witness :
  1 <= 3 /\ [100; 102; 101; 105]%R <> [] /\
  let st := updates (init 3) (map Real [100; 102; 101; 105]%R) in
  let recent := lastn 3 [100; 102; 101; 105]%R in
  items (prices st) = map Real recent /\
  length recent = Nat.min (length [100; 102; 101; 105]%R) 3 /\
  (length [100; 102; 101; 105]%R <= 3 -> recent = [100; 102; 101; 105]%R) /\
  mean_price st = Ok (Real (Rsum recent / INR (length recent))) st.
Proof.
  split; [lia|]. split; [discriminate|].
  apply (price_window_and_mean 3 [100; 102; 101; 105]%R);
    [lia | discriminate].
Defined.

(** C2, on binary64.  Window 2, prices 1e16, 1, 1: the buffer holds the
    last two prices [1; 1], whose mean is 1, and [mean_price] returns
    0.5. *)
Lemma mean_price_off_on_binary64 :
  let st := updates (init 2) [1e16; 1; 1]%float in
  items (prices st) = lastn 2 [1e16; 1; 1]%float /\
  series_mean (items (prices st)) = 1%float /\
  mean_price st = Ok 0.5%float st /\
  mean_price st <> Ok (series_mean (items (prices st))) st.
Proof.
  vm_compute. repeat split; try reflexivity. intros E.
  apply (f_equal (fun r => match value_of r with
                           | Some x => PrimFloat.eqb x 1
                           | None => true
                           end)) in E.
  vm_compute in E. discriminate.
Qed.

(** ** C3: the simple return of each call after the first *)

(** C3 (window of two or more, no zero price so far).  Every call that is
    not the first computes [r = price / previous - 1] from the price that
    arrived just before, appends [r] to the return buffer under the
    capacity-[w] eviction, and updates the running return sum by the
    evicted and the added value; the return buffer then holds the last
    [min (n - 1) w] consecutive-pair returns of the [n] prices seen. *)
Theorem update_stores_simple_return
        {F : Type} {PF : PyFloat F} (w : nat) (h : list F) (p : F) :
  2 <= w -> h <> [] -> Forall nonzero h ->
  let st := updates (init w) h in
  let r := simple_return (last h p) p in
  exists st',
    update p st = Ok tt st' /\
    items (returns st') = push w (items (returns st)) r /\
    sum_returns st' =
      fadd (evicted w (items (returns st)) (sum_returns st)) r /\
    items (returns st') = lastn w (simple_returns (h ++ [p])) /\
    length (items (returns st')) = Nat.min (length (h ++ [p]) - 1) w.
Proof.
  intros Hw Hh Hnz st r.
  assert (Hlast : feq (last h p) (of_int 0) = false).
  { rewrite Forall_forall in Hnz. apply Hnz.
    destruct (exists_last Hh) as (l0 & b & ->).
    rewrite last_last. apply in_or_app. right. now left. }
  pose proof (@update_after_history F PF w h p ltac:(lia)) as Hu.
  cbv zeta in Hu. fold st in Hu.
  replace ((2 <=? w) && negb (length h =? 0)) with true in Hu.
  2:{ symmetry. apply andb_true_intro. split; [now apply Nat.leb_le|].
      destruct h; [congruence | reflexivity]. }
  rewrite Hlast in Hu. fold r in Hu.
  eexists. split; [exact Hu|]. cbn [returns items sum_returns].
  assert (Hbuf : push w (items (returns st)) r
                 = lastn w (simple_returns (h ++ [p]))).
  { subst st. rewrite updates_returns by (auto using Forall_removelast).
    rewrite push_lastn. now rewrite simple_returns_snoc. }
  repeat split.
  - exact Hbuf.
  - rewrite Hbuf, length_lastn, length_simple_returns. reflexivity.
Qed.

Lemma update_stores_simple_return_witness :
  2 <= 3 /\ [100; 102; 101]%float <> [] /\
  Forall nonzero [100; 102; 101]%float /\
  let st := updates (init 3) [100; 102; 101]%float in
  let r := (simple_return (last [100; 102; 101] 105) 105)%float in
  exists st',
    update 105%float st = Ok tt st' /\
    items (returns st') = push 3 (items (returns st)) r /\
    sum_returns st' =
      fadd (evicted 3 (items (returns st)) (sum_returns st)) r /\
    items (returns st')
      = lastn 3 (simple_returns ([100; 102; 101] ++ [105])%float) /\
    length (items (returns st'))
      = Nat.min (length ([100; 102; 101] ++ [105])%float - 1) 3.
Proof.
  assert (Hnz : Forall nonzero [100; 102; 101]%float)
    by (repeat constructor; reflexivity).
  split; [lia|]. split; [discriminate|]. split; [exact Hnz|].
  apply (update_stores_simple_return 3 [100; 102; 101]%float 105%float);
    [lia | discriminate | exact Hnz].
Defined.

(** C3, window 1: the price buffer never holds two prices, so no call
    computes a return; after two calls the return buffer is empty, not of
    length [min (2 - 1) 1].  C3, previous price zero: the call raises and
    appends nothing. *)
Lemma no_return_under_window_one_or_after_zero :
  (let st := updates (init 1) [100; 102]%float in
   items (prices st) = [102]%float /\ items (returns st) = [] /\
   length (items (returns st)) <> Nat.min (length [100; 102]%float - 1) 1) /\
  (let st := updates (init 3) [100; 0]%float in
   exists st', update 105%float st = Raise ZeroDivisionError st' /\
               items (returns st') = items (returns st)).
Proof.
  split.
  - vm_compute. repeat split; discriminate.
  - eexists. split; vm_compute; reflexivity.
Qed.

(** ** C4, C5: the two statistics *)



(** ** C6: when [update] raises *)

(** C6 (window of one or more).  A call raises exactly when the window is
    two or more, a price arrived before, and that price compares equal to
    zero: then it raises ZeroDivisionError after the price buffer and the
    price sum took the new price (the sum less the evicted price, plus the
    new one), and leaves the return buffer and the return sum as they
    were.  In every other case it returns, the price buffer and the price
    sum having taken the new price the same way, and when a return is due
    (window two or more, a previous price, negative ones included) the
    quotient minus one is appended to the return buffer. *)
Theorem update_raises_only_after_zero_price
        {F : Type} {PF : PyFloat F} (w : nat) (h : list F) (p : F) :
  1 <= w ->
  let st := updates (init w) h in
  let due := 2 <= w /\ h <> [] in
  let prev := last h p in
  (due /\ feq prev (of_int 0) = true ->
     exists st', update p st = Raise ZeroDivisionError st' /\
       items (prices st') = lastn w (h ++ [p]) /\
       sum_prices st'
       = fadd (evicted w (items (prices st)) (sum_prices st)) p /\
       returns st' = returns st /\
       sum_returns st' = sum_returns st) /\
  (~ (due /\ feq prev (of_int 0) = true) ->
     exists st', update p st = Ok tt st' /\
       items (prices st') = lastn w (h ++ [p]) /\
       sum_prices st'
       = fadd (evicted w (items (prices st)) (sum_prices st)) p /\
       (due -> items (returns st')
               = push w (items (returns st)) (simple_return prev p))).
Proof.
  intros Hw st due prev.
  pose proof (@update_after_history F PF w h p Hw) as Hu.
  cbv zeta in Hu. fold st in Hu. fold prev in Hu.
  assert (Hdue : (2 <=? w) && negb (length h =? 0) = true <-> due).
  { unfold due. rewrite andb_true_iff, Nat.leb_le, negb_true_iff, Nat.eqb_neq.
    split; intros [H1 H2]; split; auto.
    - intros ->. now apply H2.
    - intros E. apply H2. now apply length_zero_iff_nil. }
  split.
  - intros [Hd Hz]. apply Hdue in Hd. rewrite Hd, Hz in Hu.
    eexists. split; [exact Hu|]. repeat split; reflexivity.
  - intros Hn.
    destruct ((2 <=? w) && negb (length h =? 0)) eqn:Hd.
    + destruct (feq prev (of_int 0)) eqn:Hz.
      * exfalso. apply Hn. split; [now apply Hdue | reflexivity].
      * eexists. split; [exact Hu|]. split; [reflexivity|].
        split; [reflexivity|]. intros _. reflexivity.
    + eexists. split; [exact Hu|]. split; [reflexivity|].
      split; [reflexivity|].
      intros Hd'. apply Hdue in Hd'. congruence.
Qed.

Lemma update_raises_only_after_zero_price_witness :
  1 <= 3 /\
  let h := [100; -2]%float in
  let p := 5%float in
  let st := updates (init 3) h in
  let due := 2 <= 3 /\ h <> [] in
  let prev := last h p in
  (due /\ feq prev (of_int 0) = true ->
     exists st', update p st = Raise ZeroDivisionError st' /\
       items (prices st') = lastn 3 (h ++ [p]) /\
       sum_prices st'
       = fadd (evicted 3 (items (prices st)) (sum_prices st)) p /\
       returns st' = returns st /\
       sum_returns st' = sum_returns st) /\
  (~ (due /\ feq prev (of_int 0) = true) ->
     exists st', update p st = Ok tt st' /\
       items (prices st') = lastn 3 (h ++ [p]) /\
       sum_prices st'
       = fadd (evicted 3 (items (prices st)) (sum_prices st)) p /\
       (due -> items (returns st')
               = push 3 (items (returns st)) (simple_return prev p))).
Proof.
  split; [lia|].
  apply (update_raises_only_after_zero_price 3 [100; -2]%float 5%float). lia.
Defined.

(** C6: the second call divides by the first price, zero, and raises; the
    price is in the buffer and in the sum, no return is stored. *)
Lemma update_raises_on_zero_previous_price :
  update 5%float (updates (init 2) [0]%float)
  = Raise ZeroDivisionError
      (Self 2 (Deque 2 [0; 5]%float) (Deque 2 []) 5%float 0%float).
Proof. vm_compute. reflexivity. Qed.

(** ** C7: a constant price *)

(** C7 (three prices or more, price not zero).  Under a window of two or
    more, a constant price series leaves only zero returns in the buffer
    and [volatility()] returns the number 0: in exact arithmetic for every
    non-zero real price, and on binary64 for every finite non-zero price
    (the buffer holding fewer than 2^63 returns, as every deque does).
    In exact arithmetic [sharpe(risk_free)] returns the sentinel, for every
    rate. *)
Theorem constant_prices_zero_volatility_undefined_sharpe
        (w n : nat) (p rf : R) (x : float) :
  2 <= w -> 3 <= n -> p <> 0%R ->
  is_finite x = true -> is_zero x = false ->
  (Z.of_nat (Nat.min (n - 1) w) < 2 ^ 63)%Z ->
  (let st := updates (init w) (map Real (repeat p n)) in
   items (returns st) = repeat (Real 0) (Nat.min (n - 1) w) /\
   volatility st = Ok (Real 0) st /\
   sharpe (Real rf) st = Ok NaN st) /\
  (let st := updates (init w) (repeat x n) in
   items (returns st) = repeat 0%float (Nat.min (n - 1) w) /\
   volatility st = Ok 0%float st).
Proof.
  intros Hw Hn Hp Hf Hz Hk. split.
  - intros st.
    pose proof (constant_returns w n p Hw Hp) as Hr. fold st in Hr.
    set (m := Nat.min (n - 1) w) in *.
    assert (Hm : 2 <= length (repeat 0%R m))
      by (rewrite repeat_length; subst m; lia).
    assert (Hv : R_sqrt.sqrt (Rvar (repeat 0%R m)) = 0%R).
    { rewrite Rvar_repeat by (subst m; lia). apply sqrt_0. }
    split; [|split].
    + rewrite Hr. apply map_repeat.
    + rewrite (@volatility_real st _ Hr Hm), Hv. do 2 f_equal. lra.
    + rewrite (@sharpe_real st _ rf Hr Hm).
      destruct (Req_dec_T _ _); [reflexivity | contradiction].
  - intros st.
    pose proof (price_nonzero_binary64 x Hz) as Hx.
    pose proof (price_by_itself_binary64 x Hf Hz) as Hxx.
    assert (Hdiv : forall j, 1 <= j <= Nat.min (n - 1) w ->
                     fdiv (of_int 0) (of_int j) = (of_int 0 : float)).
    { intros j Hj. apply zero_by_count_binary64; lia. }
    split.
    + exact (constant_series_returns w n x Hx Hxx Hw).
    + exact (constant_series_volatility w n x Hx Hxx eq_refl eq_refl eq_refl
               Hdiv eq_refl Hw Hn).
Qed.

Lemma constant_prices_zero_volatility_undefined_sharpe_witness :
  2 <= 3 /\ 3 <= 4 /\ 10%R <> 0%R /\
  is_finite 10%float = true /\ is_zero 10%float = false /\
  (Z.of_nat (Nat.min (4 - 1) 3) < 2 ^ 63)%Z /\
  (let st := updates (init 3) (map Real (repeat 10%R 4)) in
   items (returns st) = repeat (Real 0) (Nat.min (4 - 1) 3) /\
   volatility st = Ok (Real 0) st /\
   sharpe (Real (5 / 100)) st = Ok NaN st) /\
  (let st := updates (init 3) (repeat 10%float 4) in
   items (returns st) = repeat 0%float (Nat.min (4 - 1) 3) /\
   volatility st = Ok 0%float st).
Proof.
  assert (H10 : 10%R <> 0%R) by lra.
  assert (Hk : (Z.of_nat (Nat.min (4 - 1) 3) < 2 ^ 63)%Z) by reflexivity.
  split; [lia|]. split; [lia|]. split; [exact H10|].
  split; [reflexivity|]. split; [reflexivity|]. split; [exact Hk|].
  apply (constant_prices_zero_volatility_undefined_sharpe
           3 4 10%R (5 / 100)%R 10%float);
    [lia | lia | exact H10 | reflexivity | reflexivity | exact Hk].
Defined.

(** C7, two prices: one return only, and [volatility()] returns the
    sentinel.  C7, binary64: with four prices of 10 and the rate 0.05
    (nearest binary64, [0x1.999999999999ap-5]) the mean of the three equal
    excess returns does not round back to their value, the standard
    deviation is not zero and [sharpe] returns about [-9.49e16]. *)
Lemma constant_prices_two_prices_or_rounded_rate :
  (let st := updates (init 2) [10; 10]%float in
   items (returns st) = [0]%float /\ volatility st = Ok nan st) /\
  (let st := updates (init 3) [10; 10; 10; 10]%float in
   items (returns st) = [0; 0; 0]%float /\
   volatility st = Ok 0%float st /\
   sharpe 0x1.999999999999ap-5%float st
   = Ok (-0x1.5114b00eefde3p+56)%float st).
Proof. split; vm_compute; repeat split; reflexivity. Qed.

(** ** C8: no prices *)

(** C8.  On an empty price sequence [process_stream] exits with
    SystemExit and its message, builds no accumulator and returns no
    table; on any other it builds one. *)
Theorem process_stream_empty_exits {F : Type} {PF : PyFloat F} (w : nat) :
  process_stream (F := F) [] w
  = (None, SystemExit "No data returned."%string) /\
  (forall df, snd (process_stream (F := F) [] w) <> Returned df) /\
  (forall p ps, exists stream,
      fst (process_stream (F := F) (p :: ps) w) = Some stream).
Proof.
  split; [reflexivity|]. split.
  - intros df. cbn. discriminate.
  - intros p ps. cbn [process_stream].
    destruct (ticks (p :: ps) (init w)); eexists; reflexivity.
Qed.

(** ** C9: the queries change nothing *)

(** C9.  The three queries, called any number of times in any order, return
    with the state as it was, each with the value a lone call gives.
    [volatility] and [sharpe] read the return buffer only; [mean_price]
    reads the running price sum and the number of buffered prices. *)
Theorem queries_leave_state_unchanged
        {F : Type} {PF : PyFloat F}
        (self other : RealTimeAnalytics F) (qs : list query) :
  ask_all qs self = Ok (map (answer self) qs) self /\
  (forall q, ask q self = Ok (answer self q) self) /\
  (items (returns other) = items (returns self) ->
   answer other QVolatility = answer self QVolatility /\
   forall rf, answer other (QSharpe rf) = answer self (QSharpe rf)) /\
  (sum_prices other = sum_prices self ->
   len (prices other) = len (prices self) ->
   answer other QMean = answer self QMean).
Proof.
  split; [apply ask_all_answers|].
  split; [intros q; apply ask_answer|].
  split.
  - intros E. cbn [answer]. rewrite E. split; [reflexivity|].
    intros rf. reflexivity.
  - intros Es El. cbn [answer]. now rewrite Es, El.
Qed.

(** C9, binary64: two states reached under window 2 with the same buffers;
    the running price sums differ and so does [mean_price]. *)
Lemma mean_price_not_of_buffers_alone :
  let st1 := updates (init 2) [1e16; 1; 1; 1]%float in
  let st2 := updates (init 2) [1; 1; 1]%float in
  window st1 = window st2 /\
  prices st1 = prices st2 /\ returns st1 = returns st2 /\
  mean_price st1 = Ok 0.5%float st1 /\ mean_price st2 = Ok 1%float st2.
Proof. vm_compute. repeat split; reflexivity. Qed.

(** ** C10: the guard of [sharpe] and the rate *)

(** C10 (exact arithmetic).  In a state that real prices reach and that
    holds two returns or more, [sharpe] returns the sentinel for one rate
    exactly when it does for any other: both test whether the sample
    standard deviation of the returns themselves is zero. *)
Theorem sharpe_guard_ignores_rate (w : nat) (ps : list R) (rf1 rf2 : R) :
  1 <= w ->
  let st := updates (init w) (map Real ps) in
  2 <= len (returns st) ->
  (sharpe (Real rf1) st = Ok NaN st <-> sharpe (Real rf2) st = Ok NaN st).
Proof.
  intros Hw st Hlen.
  destruct (updates_real ps Hw) as (lr & _ & Hst). fold st in Hst.
  assert (Hr : items (returns st) = map Real lr) by (now rewrite Hst).
  assert (Hl : 2 <= length lr).
  { unfold len in Hlen. now rewrite Hr, length_map in Hlen. }
  rewrite (@sharpe_real st _ rf1 Hr Hl), (@sharpe_real st _ rf2 Hr Hl).
  destruct (Req_dec_T (R_sqrt.sqrt (Rvar lr)) 0); [tauto|].
  split; intros E; discriminate E.
Qed.

Lemma sharpe_guard_ignores_rate_witness :
  1 <= 3 /\
  let st := updates (init 3) (map Real [100; 102; 101; 105]%R) in
  2 <= len (returns st) /\
  (sharpe (Real (2 / 100)) st = Ok NaN st <->
   sharpe (Real (5 / 100)) st = Ok NaN st).
Proof.
  split; [lia|]. intros st.
  assert (Hlen : 2 <= len (returns st)).
  { subst st. unfold len.
    rewrite (updates_returns (w := 3)).
    - cbn. lia.
    - lia.
    - cbn [removelast]. repeat constructor; apply nonzero_real; lra. }
  split; [exact Hlen|].
  apply (sharpe_guard_ignores_rate 3 [100; 102; 101; 105]%R
           (2 / 100)%R (5 / 100)%R); [lia | exact Hlen].
Defined.

(** C10, binary64: four prices of 10 under window 3 leave three zero
    returns; [sharpe] returns the sentinel for the rate 0.02 (nearest
    binary64, [0x1.47ae147ae147bp-6]) and about [-9.49e16] for the rate
    0.05 ([0x1.999999999999ap-5]). *)
Lemma sharpe_guard_depends_on_rate_on_binary64 :
  let st := updates (init 3) [10; 10; 10; 10]%float in
  2 <= len (returns st) /\
  sharpe 0x1.47ae147ae147bp-6%float st = Ok nan st /\
  sharpe 0x1.999999999999ap-5%float st
  = Ok (-0x1.5114b00eefde3p+56)%float st /\
  PrimFloat.is_nan (-0x1.5114b00eefde3p+56)%float = false.
Proof.
  vm_compute. split; [lia|]. repeat split; reflexivity.
Qed.

(** ** The spec's worked scenarios, on binary64 *)

(** Window 3, prices 100, 102, 101, 105: the buffer is [102; 101; 105],
    the mean 102.67, the returns 0.02, -0.0098, 0.0396, and the last two
    rows carry numbers for the volatility and the Sharpe ratio. *)
Example scenario_window_3 :
  process_stream [100; 102; 101; 105]%float 3 =
  (Some (Self 3 (Deque 3 [102; 101; 105]%float)
              (Deque 3 [0x1.47ae147ae1480p-6; -0x1.4141414141400p-7;
                        0x1.446f86562da00p-5]%float)
              308%float 0x1.97f640434df40p-5%float),
   Returned
     [Row 100 100 nan nan;
      Row 102 101 nan nan;
      Row 101 101 0x1.5693ccf9d16f8p-2 0x1.e3e22dd22d459p+1;
      Row 105 0x1.9aaaaaaaaaaabp+6 0x1.946acebe756a1p-2
              0x1.515313dfe50ebp+3]%float).
Proof. vm_compute. reflexivity. Qed.

(** Window 5, the single price 50: the mean is 50 and the other two
    columns hold the sentinel. *)
Example scenario_single_price :
  process_stream [50]%float 5 =
  (Some (Self 5 (Deque 5 [50]%float) (Deque 5 []) 50%float 0%float),
   Returned [Row 50 50 nan nan]%float).
Proof. vm_compute. reflexivity. Qed.

(** numpy's order of addition on binary64: ten tenths add up to 1, where
    adding them in order gives [0.9999999999999999]; eight elements are
    added as a tree, so seven ones after [1e16] are not all lost. *)
Example np_sum_in_blocks_on_binary64 :
  np_sum (repeat 0x1.999999999999ap-4%float 10) = 1%float /\
  series_sum (repeat 0x1.999999999999ap-4%float 10)
  = 0x1.fffffffffffffp-1%float /\
  np_sum [1e16; 1; 1; 1; 1; 1; 1; 1]%float = 10000000000000006%float /\
  series_sum [1e16; 1; 1; 1; 1; 1; 1; 1]%float = 1e16%float.
Proof. vm_compute. repeat split; reflexivity. Qed.

(** Window 20, seventeen prices of 10: sixteen zero returns, whose excess
    over the default rate is added in two full blocks; the mean is exact,
    the standard deviation is zero and [sharpe] returns the sentinel. *)
Example scenario_constant_price_window_20 :
  let st := updates (init 20) (repeat 10%float 17) in
  items (returns st) = repeat 0%float 16 /\
  volatility st = Ok 0%float st /\
  sharpe risk_free_default st = Ok nan st.
Proof. vm_compute. repeat split; reflexivity. Qed.

(** * Further properties of the code *)

(** ** The table [process_stream] builds *)

Section Table.
Context {F : Type} {PF : PyFloat F}.

(** The rows the loop appends from a state on: each price with the three
    answers on the state its call left. *)
Fixpoint rows_from (self : RealTimeAnalytics F) (ps : list F)
  : list (row F) :=
  match ps with
  | [] => []
  | p :: ps' =>
      let self' := state_of (update p self) in
      Row p (answer self' QMean) (answer self' QVolatility)
            (answer self' (QSharpe risk_free_default))
      :: rows_from self' ps'
  end.

Lemma length_rows_from (self : RealTimeAnalytics F) (ps : list F) :
  length (rows_from self ps) = length ps.
Proof.
  revert self. induction ps as [|p ps IH]; intros self; cbn; auto.
Qed.

Lemma prices_of_rows_from (self : RealTimeAnalytics F) (ps : list F) :
  map (@Price F) (rows_from self ps) = ps.
Proof.
  revert self. induction ps as [|p ps IH]; intros self; cbn; [auto|].
  now rewrite IH.
Qed.

Lemma nth_rows_from (self : RealTimeAnalytics F) (ps : list F)
      (k : nat) (p : F) :
  nth_error ps k = Some p ->
  nth_error (rows_from self ps) k =
  let st := updates self (firstn (S k) ps) in
  Some (Row p (answer st QMean) (answer st QVolatility)
            (answer st (QSharpe risk_free_default))).
Proof.
  revert self k. induction ps as [|q ps IH]; intros self k H.
  - destruct k; discriminate H.
  - destruct k as [|k].
    + cbn in H. injection H as ->. reflexivity.
    + cbn [nth_error] in H. cbn [rows_from nth_error].
      rewrite (IH _ _ H). reflexivity.
Qed.

Lemma length_push_succ (n : nat) (l : list F) (x : F) :
  length (push n l x) <= length l + 1.
Proof.
  unfold push. destruct (n <? length (l ++ [x]));
    [destruct l; cbn [app tl length] |];
    rewrite ?length_app; cbn [length]; lia.
Qed.

(** The returns stored never outnumber the pairs of prices seen, nor the
    window; under window 1 none is stored. *)
Lemma returns_bounded (w : nat) (h : list F) :
  1 <= w ->
  length (items (returns (updates (init w) h))) <= Nat.min (length h - 1) w /\
  (w = 1 -> items (returns (updates (init w) h)) = []).
Proof.
  intros Hw. induction h as [|p h IH] using rev_ind.
  - cbn. split; [lia | reflexivity].
  - destruct IH as [IHl IH1]. rewrite updates_snoc.
    pose proof (@update_after_history F PF w h p Hw) as Hu. cbv zeta in Hu.
    pose proof (@updates_prices F PF w h Hw) as Hs. cbv zeta in Hs.
    destruct Hs as (_ & _ & Hm & _).
    rewrite Hu. rewrite length_app. cbn [length].
    destruct ((2 <=? w) && negb (length h =? 0)) eqn:Hd.
    + apply andb_true_iff in Hd. destruct Hd as [H2 Hh].
      apply Nat.leb_le in H2. apply negb_true_iff, Nat.eqb_neq in Hh.
      destruct (feq (last h p) (of_int 0)); cbn [state_of returns items].
      * split; [lia | intros ->; lia].
      * split; [|intros ->; lia].
        assert (Hl : length (items (returns (updates (init w) h))) <= w)
          by lia.
        pose proof (@length_push_le F w _ (simple_return (last h p) p)
                      Hw Hl) as Hp.
        pose proof (length_push_succ w
                      (items (returns (updates (init w) h)))
                      (simple_return (last h p) p)) as Hq.
        lia.
    + cbn [state_of returns]. split; [lia | exact IH1].
Qed.
End Table.

Section Loop.
Context {F : Type} {PF : PyFloat F}.

(** The loop over two stretches of prices is the loop over the first, then
    the loop over the second from the state reached; an exception in either
    ends it. *)
Lemma ticks_app (a b : list F) (self : RealTimeAnalytics F) :
  ticks (a ++ b) self =
  match ticks a self with
  | Ok ra s1 =>
      match ticks b s1 with
      | Ok rb s2 => Ok (ra ++ rb) s2
      | Raise e s2 => Raise e s2
      end
  | Raise e s1 => Raise e s1
  end.
Proof.
  revert self. induction a as [|p a IH]; intros self.
  - cbn. destruct (ticks b self); reflexivity.
  - cbn [app ticks]. unfold bind.
    destruct (tick p self) as [r s0|e s0]; [|reflexivity].
    rewrite IH.
    destruct (ticks a s0) as [ra s1|e s1]; [|reflexivity].
    unfold ret. cbv beta iota.
    destruct (ticks b s1) as [rb s2|e s2]; reflexivity.
Qed.

(** A call returns when the window is 1 or the price before it is not
    zero. *)
Lemma update_returns_after (w : nat) (pre : list F) (p : F) :
  1 <= w -> w = 1 \/ Forall nonzero pre ->
  update p (updates (init w) pre)
  = Ok tt (updates (init w) (pre ++ [p])).
Proof.
  intros Hw Hz. rewrite updates_snoc.
  pose proof (@update_after_history F PF w pre p Hw) as Hu. cbv zeta in Hu.
  destruct ((2 <=? w) && negb (length pre =? 0)) eqn:Hd.
  - apply andb_true_iff in Hd. destruct Hd as [H2 Hh].
    apply Nat.leb_le in H2. apply negb_true_iff, Nat.eqb_neq in Hh.
    destruct Hz as [->|Hz]; [lia|].
    assert (Hl : feq (last pre p) (of_int 0) = false).
    { rewrite Forall_forall in Hz. apply Hz.
      assert (Hne : pre <> []) by (intros ->; now apply Hh).
      destruct (exists_last Hne) as (l0 & b & ->).
      rewrite last_last. apply in_or_app. right. now left. }
    rewrite Hl in Hu. now rewrite Hu.
  - now rewrite Hu.
Qed.

Lemma ticks_after_history (w : nat) (pre suf : list F) :
  1 <= w -> w = 1 \/ Forall nonzero (removelast (pre ++ suf)) ->
  ticks suf (updates (init w) pre)
  = Ok (rows_from (updates (init w) pre) suf) (updates (init w) (pre ++ suf)).
Proof.
  intros Hw. revert pre. induction suf as [|p suf IH]; intros pre Hz.
  - cbn. now rewrite app_nil_r.
  - assert (Hpre : w = 1 \/ Forall nonzero pre).
    { destruct Hz as [->|Hz]; [now left | right].
      rewrite removelast_app in Hz by discriminate.
      apply Forall_app in Hz. tauto. }
    pose proof (update_returns_after w pre p Hw Hpre) as Hu.
    cbn [ticks rows_from]. unfold bind at 1.
    rewrite tick_after_update, Hu. cbn [state_of].
    replace (pre ++ p :: suf) with ((pre ++ [p]) ++ suf) in *
      by (now rewrite <- app_assoc).
    unfold bind at 1. rewrite (IH (pre ++ [p]) Hz). reflexivity.
Qed.
End Loop.

(** X1.  Under a window of one or more, after any calls the window size and
    both bounds are as constructed, the price buffer holds [min n w]
    prices, the return buffer at most [min (n - 1) w] returns, and one
    fewer than the price buffer at most until the window is full. *)
Theorem buffers_stay_within_window
        {F : Type} {PF : PyFloat F} (w : nat) (h : list F) :
  1 <= w ->
  let st := updates (init w) h in
  window st = w /\ maxlen (prices st) = w /\ maxlen (returns st) = w /\
  len (prices st) = Nat.min (length h) w /\
  len (returns st) <= Nat.min (length h - 1) w /\
  (length h <= w -> len (returns st) <= len (prices st) - 1).
Proof.
  intros Hw st.
  pose proof (@updates_prices F PF w h Hw) as Hs. cbv zeta in Hs.
  fold st in Hs. destruct Hs as (H1 & H2 & H3 & H4).
  pose proof (returns_bounded w h Hw) as [Hr _]. fold st in Hr.
  assert (Hp : len (prices st) = Nat.min (length h) w).
  { unfold len. rewrite H4. apply length_lastn. }
  unfold len in *. repeat split; try assumption. intros Hn. lia.
Qed.

Lemma buffers_stay_within_window_witness :
  1 <= 2 /\
  let st := updates (init 2) [100; 0; 5; 7]%float in
  window st = 2 /\ maxlen (prices st) = 2 /\ maxlen (returns st) = 2 /\
  len (prices st) = Nat.min (length [100; 0; 5; 7]%float) 2 /\
  len (returns st) <= Nat.min (length [100; 0; 5; 7]%float - 1) 2 /\
  (length [100; 0; 5; 7]%float <= 2 ->
   len (returns st) <= len (prices st) - 1).
Proof.
  split; [lia|].
  apply (buffers_stay_within_window 2 [100; 0; 5; 7]%float). lia.
Defined.

(** X2.  Under window 0 the first call of [update] raises IndexError and
    leaves the state as constructed, and [process_stream] on any prices
    ends with that exception. *)
Theorem window_zero_raises_index_error
        {F : Type} {PF : PyFloat F} (p : F) (ps : list F) :
  update p (init 0) = Raise IndexError (init 0) /\
  updates (init 0) (p :: ps) = init 0 /\
  process_stream (p :: ps) 0 = (Some (init 0), Uncaught IndexError).
Proof.
  assert (Hu : update p (init 0) = Raise IndexError (init 0))
    by reflexivity.
  split; [exact Hu|]. split.
  - induction ps as [|q ps IH] using rev_ind; [reflexivity|].
    rewrite app_comm_cons, updates_snoc, IH.
    assert (Hq : update q (init 0) = Raise IndexError (init 0))
      by reflexivity.
    now rewrite Hq.
  - cbn [process_stream ticks]. unfold bind at 1.
    rewrite tick_after_update, Hu. reflexivity.
Qed.

(** X3.  Under a window of one or more, [volatility] and [sharpe] return
    the sentinel as long as at most two prices arrived, and always under
    window 1. *)
Theorem statistics_undefined_before_third_price
        {F : Type} {PF : PyFloat F} (w : nat) (h : list F) (rf : F) :
  1 <= w -> length h <= 2 \/ w = 1 ->
  let st := updates (init w) h in
  volatility st = Ok nan st /\ sharpe rf st = Ok nan st.
Proof.
  intros Hw Hc st.
  assert (Hlen : (length (items (returns st)) <? 2) = true).
  { apply Nat.ltb_lt. subst st.
    destruct (returns_bounded w h Hw) as [Hr H1].
    destruct Hc as [Hc|Hc]; [lia|]. rewrite (H1 Hc). cbn. lia. }
  split.
  - unfold volatility. rewrite bind_get. unfold len. now rewrite Hlen.
  - unfold sharpe. rewrite bind_get. unfold len. now rewrite Hlen.
Qed.

Lemma statistics_undefined_before_third_price_witness :
  1 <= 5 /\ (length [100; 102]%float <= 2 \/ 5 = 1) /\
  let st := updates (init 5) [100; 102]%float in
  volatility st = Ok nan st /\
  sharpe 0x1.47ae147ae147bp-6%float st = Ok nan st.
Proof.
  split; [lia|]. split; [left; cbn; lia|].
  apply (statistics_undefined_before_third_price
           5 [100; 102]%float 0x1.47ae147ae147bp-6%float);
    [lia | left; cbn; lia].
Defined.

(** X4.  While no price has been evicted ([1 <= n <= w]), [mean_price]
    returns the sum of all prices, added in arrival order from zero,
    divided by their count, in any arithmetic, binary64 included. *)
Theorem mean_price_before_eviction
        {F : Type} {PF : PyFloat F} (w : nat) (h : list F) :
  1 <= length h -> length h <= w ->
  let st := updates (init w) h in
  mean_price st = Ok (series_mean h) st.
Proof.
  intros H1 Hw st.
  assert (Hw1 : 1 <= w) by lia.
  pose proof (@updates_prices F PF w h Hw1) as Hs. cbv zeta in Hs.
  fold st in Hs. destruct Hs as (_ & _ & _ & Hi).
  pose proof (sum_prices_before_eviction w h Hw1 Hw) as Hsum. fold st in Hsum.
  change (mean_price st) with (ask QMean st).
  rewrite (ask_answer st QMean). cbn [answer]. unfold len.
  rewrite Hi, lastn_all, Hsum by exact Hw.
  replace (length h =? 0) with false by (symmetry; apply Nat.eqb_neq; lia).
  reflexivity.
Qed.

Lemma mean_price_before_eviction_witness :
  1 <= length [100; 102; 101]%float /\ length [100; 102; 101]%float <= 3 /\
  let st := updates (init 3) [100; 102; 101]%float in
  mean_price st = Ok (series_mean [100; 102; 101]%float) st.
Proof.
  split; [cbn; lia|]. split; [cbn; lia|].
  apply (mean_price_before_eviction 3 [100; 102; 101]%float); cbn; lia.
Defined.

(** X5.  Under a window of one or more, on prices among which none but the
    last is zero (or under window 1), [process_stream] runs to its end: it
    leaves the accumulator that the calls of [update] reach, and the table
    has one row per price, in order, each with its price and the three
    answers on the state just after that price, [sharpe] at the default
    rate. *)
Theorem process_stream_returns_table
        {F : Type} {PF : PyFloat F} (w : nat) (data : list F) :
  1 <= w -> data <> [] ->
  w = 1 \/ Forall nonzero (removelast data) ->
  exists df,
    process_stream data w = (Some (updates (init w) data), Returned df) /\
    length df = length data /\
    map (@Price F) df = data /\
    forall k p, nth_error data k = Some p ->
      nth_error df k =
      let st := updates (init w) (firstn (S k) data) in
      Some (Row p (answer st QMean) (answer st QVolatility)
                (answer st (QSharpe risk_free_default))).
Proof.
  intros Hw Hne Hz.
  exists (rows_from (init w) data).
  pose proof (ticks_after_history w [] data Hw Hz) as Ht.
  cbn [app] in Ht. change (updates (init w) []) with (init w) in Ht.
  split.
  - destruct data as [|p ps]; [congruence|].
    unfold process_stream. now rewrite Ht.
  - split; [apply length_rows_from|].
    split; [apply prices_of_rows_from|].
    intros k p Hk. now apply nth_rows_from.
Qed.

Lemma process_stream_returns_table_witness :
  1 <= 3 /\ [100; 102; 0]%float <> [] /\
  (3 = 1 \/ Forall nonzero (removelast [100; 102; 0]%float)) /\
  exists df,
    process_stream [100; 102; 0]%float 3
    = (Some (updates (init 3) [100; 102; 0]%float), Returned df) /\
    length df = length [100; 102; 0]%float /\
    map (@Price float) df = [100; 102; 0]%float /\
    forall k p, nth_error [100; 102; 0]%float k = Some p ->
      nth_error df k =
      let st := updates (init 3) (firstn (S k) [100; 102; 0]%float) in
      Some (Row p (answer st QMean) (answer st QVolatility)
                (answer st (QSharpe risk_free_default))).
Proof.
  assert (Hz : 3 = 1 \/ Forall nonzero (removelast [100; 102; 0]%float))
    by (right; repeat constructor; reflexivity).
  split; [lia|]. split; [discriminate|]. split; [exact Hz|].
  apply (process_stream_returns_table 3 [100; 102; 0]%float);
    [lia | discriminate | exact Hz].
Defined.

(** X6.  Under a window of two or more, [process_stream] on prices with a
    zero that is not the last one does not return a table: the call for
    the price after the first zero raises ZeroDivisionError, which leaves
    [process_stream] uncaught, with that price already in the price buffer
    and no return stored for it. *)
Theorem process_stream_stops_after_zero_price
        {F : Type} {PF : PyFloat F}
        (w : nat) (pre post : list F) (z p : F) :
  2 <= w -> Forall nonzero pre -> feq z (of_int 0) = true ->
  exists st,
    process_stream (pre ++ z :: p :: post) w
    = (Some st, Uncaught ZeroDivisionError) /\
    items (prices st) = lastn w (pre ++ [z; p]) /\
    returns st = returns (updates (init w) (pre ++ [z])).
Proof.
  intros Hw Hpre Hz.
  assert (Hw1 : 1 <= w) by lia.
  assert (Hhead : w = 1 \/ Forall nonzero (removelast ([] ++ pre ++ [z]))).
  { right. cbn [app]. now rewrite removelast_last. }
  pose proof (ticks_after_history w [] (pre ++ [z]) Hw1 Hhead) as Ht.
  cbn [app] in Ht. change (updates (init w) []) with (init w) in Ht.
  pose proof (@update_after_history F PF w (pre ++ [z]) p Hw1) as Hu.
  cbv zeta in Hu. rewrite last_last, Hz in Hu.
  replace ((2 <=? w) && negb (length (pre ++ [z]) =? 0)) with true in Hu.
  2:{ symmetry. apply andb_true_intro. split; [now apply Nat.leb_le|].
      rewrite length_app. cbn [length].
      apply negb_true_iff, Nat.eqb_neq. lia. }
  match type of Hu with _ = Raise _ ?m => set (mid := m) in * end.
  exists mid. split; [|split].
  - assert (Hrun : ticks (pre ++ z :: p :: post) (init w)
                   = Raise ZeroDivisionError mid).
    { replace (pre ++ z :: p :: post) with ((pre ++ [z]) ++ p :: post)
        by (now rewrite <- app_assoc).
      rewrite ticks_app, Ht. cbn [ticks]. unfold bind at 1.
      rewrite tick_after_update, Hu. reflexivity. }
    unfold process_stream. rewrite Hrun.
    destruct pre; reflexivity.
  - subst mid. cbn [prices items]. now rewrite <- app_assoc.
  - reflexivity.
Qed.

Lemma process_stream_stops_after_zero_price_witness :
  2 <= 3 /\ Forall nonzero [100]%float /\
  feq 0%float (of_int 0) = true /\
  exists st,
    process_stream ([100] ++ 0 :: 5 :: [7])%float 3
    = (Some st, Uncaught ZeroDivisionError) /\
    items (prices st) = lastn 3 ([100] ++ [0; 5])%float /\
    returns st = returns (updates (init 3) ([100] ++ [0])%float).
Proof.
  assert (Hnz : Forall nonzero [100]%float)
    by (repeat constructor; reflexivity).
  split; [lia|]. split; [exact Hnz|]. split; [reflexivity|].
  apply (process_stream_stops_after_zero_price
           3 [100]%float [7]%float 0%float 5%float);
    [lia | exact Hnz | reflexivity].
Defined.

(** ** The sentinel of [mean_price] *)

(** X13 (exact arithmetic).  Under a window of one or more, [mean_price]
    returns the sentinel exactly when no price has arrived. *)
Theorem mean_price_undefined_iff_no_price (w : nat) (ps : list R) :
  1 <= w ->
  let st := updates (init w) (map Real ps) in
  mean_price st = Ok NaN st <-> ps = [].
Proof.
  intros Hw st. split.
  - intros E. destruct ps as [|p ps]; [reflexivity|]. exfalso.
    subst st. destruct (updates_real (p :: ps) Hw) as (lr & _ & Hst).
    rewrite Hst in E. rewrite mean_price_real in E; [discriminate E|].
    intros El. apply (f_equal (@length R)) in El.
    rewrite length_lastn in El. cbn [length] in El. lia.
  - intros ->. reflexivity.
Qed.

Lemma mean_price_undefined_iff_no_price_witness :
  1 <= 3 /\
  let st := updates (init 3) (map Real [100; 102]%R) in
  (mean_price st = Ok NaN st <-> [100; 102]%R = []).
Proof.
  split; [lia|].
  apply (mean_price_undefined_iff_no_price 3 [100; 102]%R). lia.
Defined.
